(** * The data-normalisation layer of the RC build dashboard

    A shallow embedding of the three pure pieces of the dashboard that
    turn a published spreadsheet into comparable data:

    - [parseCSV] of [src/utils/dataParser.ts] (the CSV parser),
    - [findCol], [getVal], [getValByAliases] of [src/App.tsx]
      (column resolution and value extraction),
    - [smartCompare] of [src/App.tsx] (the build/version comparator).

    The functions are TypeScript; what they use of the ECMAScript
    runtime ([trim], [toLowerCase], [Number], [split], property
    assignment and lookup on a plain object) is modelled first, in
    [Module JS]:

    - a string is the list of its code units; the model covers the
      code units U+0000..U+00FF (type [ascii]), with the white space
      and the case mapping ECMAScript has on that range;
    - a number is an IEEE-754 binary64 value, in the Standard Library's
      [spec_float] with [prec = 53] and [emax = 1024];
    - a plain object is a finite map from property names to values,
      with the inherited properties of [Object.prototype] written out
      where the code reads or assigns by a computed name. *)

From Stdlib Require Import ZArith NArith Ascii List Lia.
From Stdlib Require Import Floats.SpecFloat.
From stdpp Require Import gmap strings list.

Local Open Scope char_scope.

(** ** The ECMAScript runtime used by the code *)

Module JS.

(** *** Strings *)

(** A string, as the list of its code units. *)
Abbreviation jsstring := (list ascii).

(** A literal: [s "RC 1.0"] is the list of the characters. *)
Definition s (lit : string) : jsstring := String.list_ascii_of_string lit.

(** [a === b] on strings. *)
Definition str_eqb (a b : jsstring) : bool := bool_decide (a = b).

(** WhiteSpace and LineTerminator code points below U+0100: TAB, LF,
    VT, FF, CR, SP and NBSP.  This is the set [String.prototype.trim]
    removes and the set the regular-expression class [\s] matches. *)
Definition is_ws (c : ascii) : bool :=
  match N_of_ascii c with
  | 9 | 10 | 11 | 12 | 13 | 32 | 160 => true
  | _ => false
  end%N.

(** The rest of a list after its longest prefix of elements satisfying
    [p]. *)
Fixpoint drop_while {A} (p : A -> bool) (l : list A) : list A :=
  match l with
  | [] => []
  | a :: l' => if p a then drop_while p l' else l
  end.

Definition trimStart (x : jsstring) : jsstring := drop_while is_ws x.

Definition trimEnd (x : jsstring) : jsstring := rev (drop_while is_ws (rev x)).

(** [x.trim()] *)
Definition trim (x : jsstring) : jsstring := trimEnd (trimStart x).

(** The lower-case mapping of one code unit: A-Z, and the Latin-1
    capitals U+00C0..U+00DE without the multiplication sign U+00D7. *)
Definition lower_char (c : ascii) : ascii :=
  let n := N_of_ascii c in
  if ((65 <=? n) && (n <=? 90) || (192 <=? n) && (n <=? 222) && negb (n =? 215))%N
  then ascii_of_N (n + 32) else c.

(** [x.toLowerCase()], on strings of code units up to U+00FF, where
    the mapping is unit by unit.  On other strings
    [String.prototype.toLowerCase] depends on the context of a letter
    (the final sigma), and what is proved below from the case mapping
    is proved of the strings of this model. *)
Definition toLowerCase (x : jsstring) : jsstring := map lower_char x.

(** The regular-expression class [\d]: the ten ASCII digits. *)
Definition is_digit (c : ascii) : bool :=
  let n := N_of_ascii c in ((48 <=? n) && (n <=? 57))%N.

(** [x.split(sep)] for a separator of one code unit.  The result is
    never empty: the empty string splits into one empty segment. *)
Fixpoint split_on (sep : ascii) (x : jsstring) : list jsstring :=
  match x with
  | [] => [[]]
  | c :: x' =>
      if bool_decide (c = sep) then [] :: split_on sep x'
      else match split_on sep x' with
           | seg :: segs => (c :: seg) :: segs
           | [] => [[c]]
           end
  end.

(** [x.split(/\r?\n/)]: a line ends at LF, or at CR LF; a CR that is
    not followed by LF stays in its line. *)
Fixpoint split_lines (x : jsstring) : list jsstring :=
  match x with
  | [] => [[]]
  | "010" :: x' => [] :: split_lines x'
  | "013" :: "010" :: x' => [] :: split_lines x'
  | c :: x' =>
      match split_lines x' with
      | seg :: segs => (c :: seg) :: segs
      | [] => [[c]]
      end
  end.

(** *** Numbers *)

(** A Number value: an IEEE-754 binary64 float. *)
Abbreviation number := spec_float.

Definition prec : Z := 53.
Definition emax : Z := 1024.

Definition pos_zero : number := S754_zero false.

(** The double nearest to the integer [z] (ties to even; an integer of
    magnitude 2^1024 - 2^970 or more gives an infinity). *)
Definition num_of_Z (z : Z) : number := binary_normalize prec emax z 0 false.

(** The double nearest to [p / q] for [0 < p] and [0 < q], with the
    sign [neg]. *)
Definition num_of_ratio (neg : bool) (p q : Z) : number :=
  let '(m, e, l) := SFdiv_core_binary prec emax p 0 q 0 in
  binary_round_aux prec emax neg m e l.

(** [a === b] on numbers: NaN differs from itself, the two zeros are
    equal. *)
Definition num_eqb (a b : number) : bool := SFeqb a b.

Definition isNaN (a : number) : bool :=
  match a with S754_nan => true | _ => false end.

(** ToBoolean of a number is false exactly on NaN and the zeros. *)
Definition num_falsy (a : number) : bool :=
  match a with S754_nan | S754_zero _ => true | _ => false end.

(** The value of a digit in the given base, for 0-9, a-f and A-F. *)
Definition digit_of (base : N) (c : ascii) : option N :=
  let n := N_of_ascii c in
  let v := if ((48 <=? n) && (n <=? 57))%N then Some (n - 48)%N
           else if ((97 <=? n) && (n <=? 102))%N then Some (n - 87)%N
           else if ((65 <=? n) && (n <=? 70))%N then Some (n - 55)%N
           else None in
  match v with
  | Some d => if (d <? base)%N then Some d else None
  | None => None
  end.

(** The value of a digit string, [None] when a character is not a digit
    of the base.  The empty string has the value of the accumulator. *)
Fixpoint digits_value (base acc : N) (x : jsstring) : option N :=
  match x with
  | [] => Some acc
  | c :: x' =>
      match digit_of base c with
      | Some d => digits_value base (acc * base + d) x'
      | None => None
      end
  end.

(** The longest prefix of decimal digits, and what follows it. *)
Fixpoint span_digits (x : jsstring) : jsstring * jsstring :=
  match x with
  | c :: x' =>
      if is_digit c then let '(ds, r) := span_digits x' in (c :: ds, r)
      else ([], x)
  | [] => ([], [])
  end.

(** ExponentPart, or nothing: the power of ten, [None] when the text
    is not an exponent part. *)
Definition parse_exponent (x : jsstring) : option Z :=
  match x with
  | [] => Some 0%Z
  | c :: x' =>
      if bool_decide (c = "e") || bool_decide (c = "E") then
        let '(neg, ds) := match x' with
                          | "+" :: d => (false, d)
                          | "-" :: d => (true, d)
                          | _ => (false, x')
                          end in
        match ds with
        | [] => None
        | _ => match digits_value 10 0 ds with
               | Some v => Some (if neg then - Z.of_N v else Z.of_N v)%Z
               | None => None
               end
        end
      else None
  end.

(** StrUnsignedDecimalLiteral without Infinity: digits, an optional
    fraction and an optional exponent, with a digit before or after the
    dot.  The result [(m, e)] stands for [m * 10^e]. *)
Definition parse_unsigned_decimal (x : jsstring) : option (N * Z) :=
  let '(ip, r1) := span_digits x in
  let '(fp, r2) := match r1 with
                   | "." :: r => span_digits r
                   | _ => ([], r1)
                   end in
  match ip ++ fp with
  | [] => None
  | ds =>
      match digits_value 10 0 ds, parse_exponent r2 with
      | Some m, Some e => Some (m, (e - Z.of_nat (length fp))%Z)
      | _, _ => None
      end
  end.

(** The double nearest to [m * 10^e], with the sign [neg]. *)
Definition num_of_decimal (neg : bool) (m : N) (e : Z) : number :=
  match m with
  | N0 => S754_zero neg
  | Npos p =>
      if (0 <=? e)%Z
      then num_of_Z ((if neg then Z.neg p else Z.pos p) * 10 ^ e)
      else num_of_ratio neg (Z.pos p) (10 ^ (- e))
  end.

(** StrDecimalLiteral: an optional sign, then Infinity or an unsigned
    decimal literal. *)
Definition parse_decimal (x : jsstring) : option number :=
  let '(neg, u) := match x with
                   | "+" :: r => (false, r)
                   | "-" :: r => (true, r)
                   | _ => (false, x)
                   end in
  if bool_decide (u = s "Infinity") then Some (S754_infinity neg)
  else match parse_unsigned_decimal u with
       | Some (m, e) => Some (num_of_decimal neg m e)
       | None => None
       end.

(** The base a marker letter announces: x, o or b, in either case. *)
Definition radix_of_marker (c : ascii) : option N :=
  match lower_char c with
  | "x" => Some 16%N
  | "o" => Some 8%N
  | "b" => Some 2%N
  | _ => None
  end.

(** NonDecimalIntegerLiteral: 0x, 0o or 0b (either case) and at least
    one digit of the base; no sign. *)
Definition parse_non_decimal (x : jsstring) : option number :=
  match x with
  | "0" :: c :: (_ :: _) as ds =>
      match radix_of_marker c with
      | Some b => match digits_value b 0 ds with
                  | Some v => Some (num_of_Z (Z.of_N v))
                  | None => None
                  end
      | None => None
      end
  | _ => None
  end.

(** The numeric literal a string denotes after its white space is
    trimmed, [None] when it is not a StringNumericLiteral.  The empty
    string denotes 0. *)
Definition parse_number (x : jsstring) : option number :=
  match trim x with
  | [] => Some pos_zero
  | t => match parse_non_decimal t with
         | Some n => Some n
         | None => parse_decimal t
         end
  end.

(** [Number(x)] for a string [x]: StringToNumber, with the value of
    the literal rounded to the nearest double whatever the number of
    its digits. *)
Definition Number (x : jsstring) : number :=
  match parse_number x with
  | Some n => n
  | None => S754_nan
  end.

(** The integer a finite number is, when it is one. *)
Definition integer_value (a : number) : option Z :=
  match a with
  | S754_zero _ => Some 0%Z
  | S754_finite neg m e =>
      if (0 <=? e)%Z then Some ((if neg then Z.neg m else Z.pos m) * 2 ^ e)%Z
      else if (Z.pos m mod 2 ^ (- e) =? 0)%Z
           then Some ((if neg then Z.neg m else Z.pos m) / 2 ^ (- e))%Z
           else None
  | _ => None
  end.

(** *** Values and plain objects *)

(** The values the code stores in a row and compares: a cell is a
    string or a number, a missing one is [undefined]. *)
Inductive value :=
  | VUndefined
  | VNum (n : number)
  | VStr (x : jsstring).

(** ToBoolean *)
Definition truthy (v : value) : bool :=
  match v with
  | VUndefined => false
  | VNum n => negb (num_falsy n)
  | VStr x => negb (str_eqb x [])
  end.

(** ToNumber *)
Definition ToNumber (v : value) : number :=
  match v with
  | VUndefined => S754_nan
  | VNum n => n
  | VStr x => Number x
  end.

(** A plain object: its own properties. *)
Abbreviation object := (gmap jsstring value).

(** The property names every plain object inherits from
    [Object.prototype]; each is bound to a function, [__proto__] to the
    prototype object. *)
Definition prototype_names : list jsstring :=
  map s [ "constructor"; "__defineGetter__"; "__defineSetter__";
          "hasOwnProperty"; "__lookupGetter__"; "__lookupSetter__";
          "isPrototypeOf"; "propertyIsEnumerable"; "toString"; "valueOf";
          "__proto__"; "toLocaleString" ]%stdpp.

(** The outcome of reading [o[k]]. *)
Inductive read :=
  | Own (v : value)
  | Inherited
  | Absent.

(** [o[k]]: the own property, else the inherited one, else
    [undefined]. *)
Definition get (o : object) (k : jsstring) : read :=
  match o !! k with
  | Some v => Own v
  | None => if bool_decide (k ∈ prototype_names) then Inherited else Absent
  end.

(** [r === undefined] *)
Definition is_undefined (r : read) : bool :=
  match r with
  | Own VUndefined | Absent => true
  | _ => false
  end.

(** [Number(r)]: a function or the prototype object converts to NaN. *)
Definition read_to_number (r : read) : number :=
  match r with
  | Own v => ToNumber v
  | Inherited | Absent => S754_nan
  end.

(** [o[k] = v] for a primitive [v]: assigning a primitive to
    [__proto__] runs the inherited setter, which ignores it; any other
    name becomes (or overwrites) an own property. *)
Definition set (o : object) (k : jsstring) (v : value) : object :=
  if bool_decide (k = s "__proto__") then o else <[k := v]> o.

End JS.

Import JS.

(** ** The CSV parser: [src/utils/dataParser.ts] *)

Module DataParser.

(** [DashboardData]: the header list and the rows, each row an object
    keyed by header. *)
Record DashboardData := {
  headers : list jsstring;
  rows : list object
}.

(** The three locals of [splitLine]'s loop. *)
Record scan := {
  result : list jsstring;
  cur : jsstring;
  inQuotes : bool
}.

(** One turn of the loop of [splitLine], on the character [char]. *)
Definition scan_char (st : scan) (char : ascii) : scan :=
  if bool_decide (char = "034") then
    {| result := result st; cur := cur st; inQuotes := negb (inQuotes st) |}
  else if bool_decide (char = ",") && negb (inQuotes st) then
    {| result := result st ++ [trim (cur st)]; cur := []; inQuotes := inQuotes st |}
  else
    {| result := result st; cur := cur st ++ [char]; inQuotes := inQuotes st |}.

Definition scan_start : scan :=
  {| result := []; cur := []; inQuotes := false |}.

(** [splitLine(line)]: the loop over the characters, then the last
    field is pushed. *)
Definition splitLine (line : jsstring) : list jsstring :=
  let st := fold_left scan_char line scan_start in
  result st ++ [trim (cur st)].

(** [val.replace(/^"|"$/g, '')]: a quote at the start and a quote at
    the end are removed. *)
Definition strip_quotes (val : jsstring) : jsstring :=
  let v := match val with
           | "034" :: r => r
           | _ => val
           end in
  match rev v with
  | "034" :: r => rev r
  | _ => v
  end.

(** The value stored for one header: the field at the index, or the
    empty string when there is none, without surrounding quotes, as a number when it is not empty and
    [isNaN] is false of it, as the string otherwise. *)
Definition cell_value (field : option jsstring) : value :=
  let val := strip_quotes (default [] field) in
  if negb (str_eqb val []) && negb (isNaN (Number val))
  then VNum (Number val)
  else VStr val.

(** [headers.forEach((header, index) => ...)] from [index] on, on the
    row built so far. *)
Fixpoint fill_row (values : list jsstring) (index : nat)
    (hs : list jsstring) (row : object) : object :=
  match hs with
  | [] => row
  | header :: hs' =>
      fill_row values (S index) hs' (set row header (cell_value (values !! index)))
  end.

(** The row of one data line. *)
Definition make_row (hs : list jsstring) (line : jsstring) : object :=
  fill_row (splitLine line) 0 hs ∅.

(** The lines of the text that are not blank. *)
Definition content_lines (csvText : jsstring) : list jsstring :=
  List.filter (fun line => negb (str_eqb (trim line) [])) (split_lines csvText).

(** [parseCSV(csvText)] *)
Definition parseCSV (csvText : jsstring) : DashboardData :=
  match content_lines csvText with
  | [] => {| headers := []; rows := [] |}
  | first :: rest =>
      let hs := splitLine first in
      {| headers := hs; rows := map (make_row hs) rest |}
  end.

End DataParser.

(** ** Column resolution, value extraction, comparison: [src/App.tsx] *)

Module App.

(** The test of [findCol] on one header: some alias, lower-cased,
    is the header lower-cased and trimmed. *)
Definition alias_matches (aliases : list jsstring) (h : jsstring) : bool :=
  existsb (fun a => str_eqb (toLowerCase a) (trim (toLowerCase h))) aliases.

(** [findCol(headers, aliases)]; [None] is [undefined]. *)
Definition findCol (headers aliases : list jsstring) : option jsstring :=
  match headers with
  | [] => None
  | _ => List.find (alias_matches aliases) headers
  end.

(** [x || 0] on a number. *)
Definition or_zero (x : number) : number :=
  if num_falsy x then pos_zero else x.

(** [getVal(row, header)]; the header is a string or [undefined]. *)
Definition getVal (row : object) (header : option jsstring) : number :=
  match header with
  | None => pos_zero
  | Some h =>
      if str_eqb h [] || is_undefined (get row h) then pos_zero
      else or_zero (read_to_number (get row h))
  end.

(** [getValByAliases(row, headers, aliases)] *)
Definition getValByAliases (row : object) (headers aliases : list jsstring) : number :=
  getVal row (findCol headers aliases).

(** The alternation [(rc|build|v|ver|version)], in its order. *)
Definition prefix_words : list jsstring :=
  map s [ "rc"; "build"; "v"; "ver"; "version" ]%stdpp.

(** The word [w] at the start of [x] under the [i] flag: what follows
    it.  A pattern letter matches itself and its capital. *)
Fixpoint match_word (w x : jsstring) : option jsstring :=
  match w, x with
  | [], _ => Some x
  | c :: w', d :: x' =>
      if bool_decide (lower_char d = c) then match_word w' x' else None
  | _ :: _, [] => None
  end.

(** The alternatives are tried from left to right, and the first that
    matches is kept: the class that follows matches any text, the empty
    one too, so the matcher never comes back to try a later word. *)
Fixpoint match_alternation (words : list jsstring) (x : jsstring) : option jsstring :=
  match words with
  | [] => None
  | w :: words' =>
      match match_word w x with
      | Some r => Some r
      | None => match_alternation words' x
      end
  end.

(** The class [[\s:.-]]. *)
Definition is_separator (c : ascii) : bool :=
  is_ws c || bool_decide (c = ":") || bool_decide (c = ".") || bool_decide (c = "-").

(** [x.replace(/^(rc|build|v|ver|version)[\s:.-]*/i, '')] *)
Definition strip_prefix (x : jsstring) : jsstring :=
  match match_alternation prefix_words x with
  | Some r => drop_while is_separator r
  | None => x
  end.

(** [clean(x)] *)
Definition clean (x : jsstring) : jsstring := trim (strip_prefix x).

(** [isVersion(x)]: [/^[\d.]+$/.test(x)] *)
Definition isVersion (x : jsstring) : bool :=
  negb (str_eqb x []) && forallb (fun c => is_digit c || bool_decide (c = ".")) x.

(** [while (a.length > 0 && a[a.length - 1] === 0) a.pop()] *)
Definition pop_zeros (a : list number) : list number :=
  rev (drop_while (fun n => num_eqb n pos_zero) (rev a)).

(** [a.every((val, i) => p(val, i))], the indices counted from [i]. *)
Fixpoint every {A} (p : A -> nat -> bool) (i : nat) (a : list A) : bool :=
  match a with
  | [] => true
  | val :: a' => p val i && every p (S i) a'
  end.

(** [val === b[i]]; an index out of range reads [undefined]. *)
Definition same_at (b : list number) (val : number) (i : nat) : bool :=
  match b !! i with
  | Some w => num_eqb val w
  | None => false
  end.

(** The version-segment comparison of two cleaned strings. *)
Definition compare_versions (ca cb : jsstring) : bool :=
  let splitA := pop_zeros (map Number (split_on "." ca)) in
  let splitB := pop_zeros (map Number (split_on "." cb)) in
  if negb (length splitA =? length splitB)%nat then false
  else every (same_at splitB) 0 splitA.

Section Comparator.

(** [String(n)] for a number that is neither NaN nor a zero is the
    runtime's shortest round-trip printing; the comparator is modelled
    for any such function. *)
Variable Number_toString : number -> jsstring.

(** [String(a || '')] *)
Definition String_or_empty (a : value) : jsstring :=
  if truthy a then
    match a with
    | VStr x => x
    | VNum n => Number_toString n
    | VUndefined => s "undefined"
    end
  else [].

(** [smartCompare(a, b)] *)
Definition smartCompare (a b : value) : bool :=
  let sa := trim (String_or_empty a) in
  let sb := trim (String_or_empty b) in
  if str_eqb sa [] || str_eqb sb [] then false
  else if str_eqb sa sb then true
  else if str_eqb (toLowerCase sa) (toLowerCase sb) then true
  else
    let ca := clean sa in
    let cb := clean sb in
    if str_eqb ca cb then true
    else if str_eqb (toLowerCase ca) (toLowerCase cb) then true
    else if isVersion ca && isVersion cb then compare_versions ca cb
    else false.

End Comparator.

End App.

Import DataParser App.

(** ** The specification's notions, in its own words *)

Module Spec.

(** A line that is empty or whitespace-only. *)
Definition blank (line : jsstring) : bool := forallb is_ws line.

(** The commas of a line that are outside quotes; [quoted] tells
    whether the line starts inside a quoted field. *)
Fixpoint unquoted_commas (quoted : bool) (line : jsstring) : nat :=
  match line with
  | [] => 0
  | c :: line' =>
      if bool_decide (c = "034") then unquoted_commas (negb quoted) line'
      else if bool_decide (c = ",") && negb quoted
           then S (unquoted_commas quoted line')
           else unquoted_commas quoted line'
  end.

(** The number of fields of a line: one more than its separators. *)
Definition field_count (line : jsstring) : nat := S (unquoted_commas false line).

(** A value that parses fully as a number. *)
Definition is_numeric (val : jsstring) : bool :=
  match parse_number val with
  | Some _ => true
  | None => false
  end.

(** The stored form of a trimmed cell: a number when it is not empty
    and fully numeric, the string otherwise. *)
Definition stored (val : jsstring) : value :=
  if negb (str_eqb val []) && is_numeric val then VNum (Number val) else VStr val.

(** The value [v] is the one paired with header [h]: it is the stored
    form of the field at an index of [h] in the header list (the last
    one, when a header repeats), the empty string standing for a field
    the line does not have. *)
Definition paired (hs values : list jsstring) (h : jsstring) (v : value) : Prop :=
  ∃ i : nat,
    hs !! i = Some h ∧
    (∀ j : nat, i < j → hs !! j ≠ Some h) ∧
    v = stored (default [] (values !! i)).

(** Some alias equals the header, case-insensitively, the header
    trimmed. *)
Definition header_matches (aliases : list jsstring) (h : jsstring) : Prop :=
  ∃ a, a ∈ aliases ∧ toLowerCase a = trim (toLowerCase h).

(** A list without its trailing elements that are zero. *)
Fixpoint strip_trailing {A} (zero : A -> bool) (l : list A) : list A :=
  match l with
  | [] => []
  | x :: l' =>
      match strip_trailing zero l' with
      | [] => if zero x then [] else [x]
      | r => x :: r
      end
  end.

(** False when the lengths differ, else the elementwise comparison. *)
Definition same_sequence {A} (eq : A -> A -> bool) (la lb : list A) : bool :=
  if bool_decide (length la = length lb)
  then forallb (fun p => eq p.1 p.2) (combine la lb)
  else false.

(** The integer a segment of digits denotes; an empty segment
    denotes 0. *)
Definition segment_integer (seg : jsstring) : N :=
  fold_left (fun acc c => acc * 10 + (N_of_ascii c - 48))%N seg 0%N.

(** The segments of a version as integers, the trailing zeros
    stripped. *)
Definition integer_segments (c : jsstring) : list N :=
  strip_trailing (N.eqb 0) (map segment_integer (split_on "." c)).

(** Version equality on integer segments. *)
Definition equal_as_integers (ca cb : jsstring) : bool :=
  same_sequence N.eqb (integer_segments ca) (integer_segments cb).

(** The segments of a version as Number values, the trailing zeros
    stripped. *)
Definition number_segments (c : jsstring) : list number :=
  strip_trailing (fun n => num_eqb n pos_zero) (map Number (split_on "." c)).

(** Version equality on Number segments. *)
Definition equal_as_numbers (ca cb : jsstring) : bool :=
  same_sequence num_eqb (number_segments ca) (number_segments cb).

(** Every segment is below 2^53, where a double holds each integer
    exactly. *)
Definition safe_segments (c : jsstring) : Prop :=
  Forall (fun seg => (segment_integer seg < 2 ^ 53)%N) (split_on "." c).

(** The string the comparator cleans: the argument as a string,
    trimmed, its prefix removed. *)
Definition cleaned (toStr : number -> jsstring) (a : value) : jsstring :=
  clean (trim (String_or_empty toStr a)).

(** What the scan of a line keeps true: no field and no buffer holds
    a quote, and every pushed field is trimmed. *)
Definition scan_clean (st : scan) : Prop :=
  Forall (fun f => ("034" ∉ f) ∧ trim f = f) (result st) ∧ "034" ∉ cur st.

End Spec.

Import Spec.

(** A printing of numbers for the concrete inputs below, which are
    strings, zeros and [undefined] and never reach it. *)
Definition no_print (n : number) : jsstring := [].

(** ** The views computed from the tables: [src/App.tsx] *)

Module Dashboard.

(** [p] is at the start of [x]. *)
Fixpoint is_prefix (p x : jsstring) : bool :=
  match p, x with
  | [], _ => true
  | c :: p', d :: x' => bool_decide (c = d) && is_prefix p' x'
  | _ :: _, [] => false
  end.

(** [x.includes(sub)] *)
Fixpoint includes (x sub : jsstring) : bool :=
  is_prefix sub x ||
  match x with
  | [] => false
  | _ :: x' => includes x' sub
  end.

(** The class strings the two style helpers return. *)
Definition style_rose : jsstring :=
  s "bg-rose-100 text-rose-700 dark:bg-rose-900/30 dark:text-rose-400".
Definition style_emerald : jsstring :=
  s "bg-emerald-100 text-emerald-700 dark:bg-emerald-900/30 dark:text-emerald-400".
Definition style_amber : jsstring :=
  s "bg-amber-100 text-amber-700 dark:bg-amber-900/30 dark:text-amber-400".
Definition style_yellow : jsstring :=
  s "bg-yellow-100 text-yellow-700 dark:bg-yellow-900/30 dark:text-yellow-400".
Definition style_slate : jsstring :=
  s "bg-slate-100 text-slate-600 dark:bg-slate-800 dark:text-slate-400".
Definition style_blue : jsstring :=
  s "bg-blue-100 text-blue-700 dark:bg-blue-900/30 dark:text-blue-400".

(** The branches of [getStatusStyles] on the lower-cased text. *)
Definition status_style (x : jsstring) : jsstring :=
  if includes x (s "not implemented") || includes x (s "not fixed")
     || includes x (s "fail") || includes x (s "error")
  then style_rose
  else if includes x (s "implemented") || includes x (s "fixed")
          || includes x (s "pass") || includes x (s "success")
          || includes x (s "completed")
  then style_emerald
  else if includes x (s "in progress") || includes x (s "pending")
          || includes x (s "started")
  then style_amber
  else if includes x (s "cnv") then style_yellow
  else if includes x (s "not considered") then style_slate
  else style_blue.

(** The branches of [getBuildTypeStyles] on the lower-cased text. *)
Definition build_type_style (t : jsstring) : jsstring :=
  if includes t (s "hotfix") then style_rose
  else if includes t (s "planned") then style_emerald
  else if includes t (s "adhoc") || includes t (s "ad-hoc") then style_amber
  else if includes t (s "release") then style_blue
  else style_slate.

Definition PLATFORM_COL_ALIASES : list jsstring :=
  map s [ "Platform"; "OS"; "Environment"; "Device" ]%stdpp.
Definition BUILD_COL_ALIASES : list jsstring :=
  map s [ "RC Build"; "Build Version"; "Build"; "Version"; "Build Number";
          "Release Build"; "Build details" ]%stdpp.
Definition DATE_COL_ALIASES : list jsstring :=
  map s [ "Build Date"; "Date"; "Reported Date"; "Created At"; "Start Date" ]%stdpp.

(** The ids of the tabs, [TABS_CONFIG.SUMMARY.id] and
    [TABS_CONFIG.VALIDATION.id]. *)
Definition SUMMARY_id : jsstring := s "summary".
Definition VALIDATION_id : jsstring := s "validation".

(** The serial-number spellings [displayHeaders] hides. *)
Definition sNoAliases : list jsstring :=
  map s [ "s no"; "s.no"; "s.no."; "s. no"; "serial no"; "no."; "no" ]%stdpp.

(** [displayHeaders] for the table of the active tab, [None] when the
    tab has no table yet. *)
Definition displayHeaders (data : option DashboardData) (activeTab : jsstring)
    : list jsstring :=
  match data with
  | None => []
  | Some data =>
      let hs := List.filter
                  (fun h => negb (bool_decide (trim (toLowerCase h) ∈ sNoAliases)))
                  (headers data) in
      if str_eqb activeTab VALIDATION_id then
        let pCol := findCol (headers data) PLATFORM_COL_ALIASES in
        let bCol := findCol (headers data) BUILD_COL_ALIASES in
        List.filter (fun h => negb (bool_decide (Some h = pCol))
                              && negb (bool_decide (Some h = bCol))) hs
      else hs
  end.

(** ToBoolean of a column: [undefined] and the empty string are
    falsy. *)
Definition col_truthy (col : option jsstring) : bool :=
  match col with
  | Some h => negb (str_eqb h [])
  | None => false
  end.

(** The property key a column is when used in [r[col]]. *)
Definition col_key (col : option jsstring) : jsstring :=
  default (s "undefined") col.

(** ToBoolean of what a property read gives. *)
Definition read_truthy (r : read) : bool :=
  match r with
  | Own v => truthy v
  | Inherited => true
  | Absent => false
  end.

Section Views.

(** [String(n)] for a number, as in the comparator. *)
Variable Number_toString : number -> jsstring.

(** [String(o[k])] for a name [k] inherited from [Object.prototype]:
    the text of a built-in function. *)
Variable Inherited_toString : jsstring -> jsstring.

(** The time value of [new Date(x)], NaN for an invalid date. *)
Variable Date_time : read -> number.

(** [getStatusStyles(value)] *)
Definition getStatusStyles (value : value) : jsstring :=
  status_style (toLowerCase (String_or_empty Number_toString value)).

(** [getBuildTypeStyles(type)] *)
Definition getBuildTypeStyles (type : value) : jsstring :=
  build_type_style (toLowerCase (String_or_empty Number_toString type)).

(** [r[col]] as an argument of [smartCompare]: an inherited member is
    truthy and is compared by its text. *)
Definition cell_arg (r : object) (col : option jsstring) : value :=
  match get r (col_key col) with
  | Own v => v
  | Inherited => VStr (Inherited_toString (col_key col))
  | Absent => VUndefined
  end.

(** [smartCompare(r[col], x)] *)
Definition cell_is (col : option jsstring) (x : jsstring) (r : object) : bool :=
  smartCompare Number_toString (cell_arg r col) (VStr x).

(** The date test of the row filters, on what [r[dCol]] reads:
    [a >= b] and [a <= b] on dates compare the time values, and are
    false when one is NaN. *)
Definition in_date_range (startDate endDate : jsstring) (x : read) : bool :=
  if negb (read_truthy x) then false
  else
    let bd := Date_time x in
    (str_eqb startDate []
     || SFleb (Date_time (Own (VStr startDate))) bd)
    && (str_eqb endDate []
        || SFleb bd (Date_time (Own (VStr endDate)))).

(** [filteredRows], from the table of the active tab and the filter
    state; [builds] is the list the build selector shows. *)
Definition filteredRows (data : option DashboardData)
    (activeTab selectedPlatform selectedBuild startDate endDate : jsstring)
    (builds : list jsstring) : list object :=
  match data with
  | None => []
  | Some data =>
      let pCol := findCol (headers data) PLATFORM_COL_ALIASES in
      let bCol := findCol (headers data) BUILD_COL_ALIASES in
      let dCol := findCol (headers data) DATE_COL_ALIASES in
      let rows1 :=
        if negb (str_eqb selectedBuild (s "All")) && col_truthy bCol then
          List.filter (cell_is bCol selectedBuild) (rows data)
        else if negb (str_eqb selectedPlatform (s "All")) then
          if col_truthy pCol then
            List.filter (cell_is pCol selectedPlatform) (rows data)
          else if col_truthy bCol && negb (str_eqb activeTab SUMMARY_id) then
            List.filter (fun r => existsb (fun b => cell_is bCol b r) builds)
                        (rows data)
          else rows data
        else rows data in
      if negb (str_eqb startDate []) || negb (str_eqb endDate []) then
        if col_truthy dCol then
          List.filter (fun r => in_date_range startDate endDate
                                  (get r (col_key dCol))) rows1
        else rows1
      else rows1
  end.

(** The rows [summaryStats] and [pieData] reduce over, which are also
    the [sumRows] of [trendData] before it cuts and reverses them: the
    rows of the summary table after the platform filter, the build
    filter and the date filter, each when it is set. *)
Definition summaryRows (data : DashboardData)
    (selectedPlatform selectedBuild startDate endDate : jsstring)
    : list object :=
  let pCol := findCol (headers data) PLATFORM_COL_ALIASES in
  let bCol := findCol (headers data) BUILD_COL_ALIASES in
  let dCol := findCol (headers data) DATE_COL_ALIASES in
  let rows1 :=
    if negb (str_eqb selectedPlatform (s "All")) && col_truthy pCol
    then List.filter (cell_is pCol selectedPlatform) (rows data)
    else rows data in
  let rows2 :=
    if negb (str_eqb selectedBuild (s "All")) && col_truthy bCol
    then List.filter (cell_is bCol selectedBuild) rows1
    else rows1 in
  if negb (str_eqb startDate []) || negb (str_eqb endDate []) then
    List.filter (fun r => in_date_range startDate endDate
                   (get r (if col_truthy dCol then col_key dCol else [])))
                rows2
  else rows2.

(** The rows [trendData] maps: [sumRows.slice(0, 10).reverse()]. *)
Definition trendRows (data : DashboardData)
    (selectedPlatform selectedBuild startDate endDate : jsstring)
    : list object :=
  rev (take 10 (summaryRows data selectedPlatform selectedBuild
                  startDate endDate)).

End Views.

End Dashboard.

Import Dashboard.

(** ** Tables written back as text *)

Module Render.

(** A field between quotes. *)
Definition quote_field (f : jsstring) : jsstring := "034" :: f ++ ["034"].

(** The pieces joined, [sep] between them. *)
Fixpoint join (sep : jsstring) (pieces : list jsstring) : jsstring :=
  match pieces with
  | [] => []
  | [x] => x
  | x :: rest => x ++ sep ++ join sep rest
  end.

(** A line of quoted fields. *)
Definition csv_line (fields : list jsstring) : jsstring :=
  join [","%char] (map quote_field fields).

(** A table as text: the header line and the data lines, every field
    quoted, LF between the lines. *)
Definition csv_text (table : list (list jsstring)) : jsstring :=
  join ["010"%char] (map csv_line table).

(** The text with CR LF for every LF. *)
Fixpoint to_crlf (x : jsstring) : jsstring :=
  match x with
  | [] => []
  | c :: x' =>
      if bool_decide (c = "010") then "013" :: "010" :: to_crlf x'
      else c :: to_crlf x'
  end.

(** A field a quoted line can carry: no quote, no line feed, no white
    space at its ends. *)
Definition plain_field (f : jsstring) : Prop :=
  ("034" ∉ f) ∧ ("010" ∉ f) ∧ trim f = f.

End Render.

Import Render.

(** ** Sample inputs *)

(** The text of inherited members and a clock for the concrete inputs
    below: the sample tables have no header named as a member of
    [Object.prototype], and their date cells are day numbers. *)
Definition no_text (k : jsstring) : jsstring := [].

Definition day_number (x : read) : number := read_to_number x.

(** A summary table with a date column, and one without. *)
Definition sample_table : DashboardData :=
  parseCSV (s "Build,Platform,Passed,Date" ++ "010"
            :: s "RC 1.0,iOS,10,3" ++ "010"
            :: s "RC 2.0,Android,8,7" ++ "010"
            :: s "1.0.0,Android,9," ++ []).

Definition sample_undated : DashboardData :=
  parseCSV (s "S.No,Build,Status" ++ "010" :: s "1,RC 1.0,Pass" ++ []).

(** ** The runtime model on known values *)

Section RuntimeChecks.

(** CR LF and LF end a line; a lone CR does not. *)
Example split_lines_endings :
  split_lines (s "a" ++ "013" :: "010" :: s "b" ++ "013" :: s "c" ++ "010" :: [])
  = [s "a"; s "b" ++ "013" :: s "c"; []].
Proof. reflexivity. Qed.

Example split_on_empty_segments :
  split_on "." (s "1..2.") = [s "1"; []; s "2"; []].
Proof. reflexivity. Qed.

Example trim_both_ends :
  trim ("009" :: s "  RC 1 " ++ "160" :: "013" :: []) = s "RC 1".
Proof. reflexivity. Qed.

(** 0.1 is 0x1.999999999999ap-4, and 1e23 rounds down. *)
Example Number_fractions :
  Number (s "0.1") = S754_finite false 7205759403792794 (-56)
  ∧ Number (s "1e23") = S754_finite false 5960464477539062 24
  ∧ Number (s "-2") = S754_finite true 4503599627370496 (-51)
  ∧ Number (s " 0x1F ") = num_of_Z 31
  ∧ Number (s "3.5e1") = num_of_Z 35.
Proof. by vm_compute. Qed.

(** The largest double, the overflow to Infinity, the smallest
    subnormal and the underflow to 0. *)
Example Number_range :
  Number (s "1.7976931348623157e308") = S754_finite false 9007199254740991 971
  ∧ Number (s "1.7976931348623159e308") = S754_infinity false
  ∧ Number (s "5e-324") = S754_finite false 1 (-1074)
  ∧ Number (s "2e-324") = S754_zero false.
Proof. by vm_compute. Qed.

Example Number_not_numeric :
  Number (s "42abc") = S754_nan ∧ Number (s "-0x1F") = S754_nan
  ∧ Number (s ".") = S754_nan ∧ Number (s "1e") = S754_nan
  ∧ Number (s "infinity") = S754_nan.
Proof. by vm_compute. Qed.

Example Number_ties_to_even :
  integer_value (Number (s "9007199254740993")) = Some 9007199254740992%Z
  ∧ integer_value (Number (s "9007199254740995")) = Some 9007199254740996%Z.
Proof. by vm_compute. Qed.

End RuntimeChecks.

(** ** Facts about the runtime model *)

Section RuntimeFacts.

Ltac by_cases_on_char c :=
  destruct c as [[] [] [] [] [] [] [] []]; try reflexivity; try discriminate.

Lemma lower_char_idem c : lower_char (lower_char c) = lower_char c.
Proof. by_cases_on_char c. Qed.

Lemma is_ws_lower c : is_ws (lower_char c) = is_ws c.
Proof. by_cases_on_char c. Qed.

Lemma is_separator_lower c : is_separator (lower_char c) = is_separator c.
Proof. by_cases_on_char c. Qed.

Lemma letter_e_not_separator c : lower_char c = "e" → is_separator c = false.
Proof. by_cases_on_char c. Qed.

Lemma version_char_lower c :
  is_digit c || bool_decide (c = ".") = true → lower_char c = c.
Proof. by_cases_on_char c. Qed.

Lemma str_eqb_eq a b : str_eqb a b = true ↔ a = b.
Proof. unfold str_eqb. apply bool_decide_eq_true. Qed.

Lemma str_eqb_refl a : str_eqb a a = true.
Proof. by apply str_eqb_eq. Qed.

Lemma str_eqb_sym a b : str_eqb a b = str_eqb b a.
Proof. unfold str_eqb. apply bool_decide_ext. split; congruence. Qed.

Lemma drop_while_nil {A} (p : A → bool) l :
  drop_while p l = [] ↔ forallb p l = true.
Proof.
  induction l as [|a l IH]; simpl; [done|].
  destruct (p a); simpl; [done|]. split; discriminate.
Qed.

Lemma drop_while_split {A} (p : A → bool) l :
  ∃ pre, l = pre ++ drop_while p l ∧ forallb p pre = true.
Proof.
  induction l as [|a l [pre [Hl Hp]]]; simpl.
  - by exists [].
  - destruct (p a) eqn:Ha.
    + exists (a :: pre). simpl. rewrite Ha, Hp. split; [by f_equal|done].
    + by exists [].
Qed.

Lemma drop_while_head {A} (p : A → bool) l a r :
  drop_while p l = a :: r → p a = false.
Proof.
  induction l as [|b l IH]; simpl; [done|].
  destruct (p b) eqn:Hb; [done|]. intros [= <- _]. done.
Qed.

Lemma drop_while_idem {A} (p : A → bool) l :
  drop_while p (drop_while p l) = drop_while p l.
Proof.
  destruct (drop_while p l) as [|a r] eqn:E; [done|].
  simpl. by rewrite (drop_while_head _ _ _ _ E).
Qed.

Lemma drop_while_map {A} (p : A → bool) (f : A → A) l :
  (∀ a, p (f a) = p a) →
  drop_while p (map f l) = map f (drop_while p l).
Proof.
  intros Hp. induction l as [|a l IH]; simpl; [done|].
  rewrite Hp. by destruct (p a).
Qed.

Lemma forallb_rev {A} (p : A → bool) l : forallb p (rev l) = forallb p l.
Proof.
  induction l as [|a l IH]; simpl; [done|].
  rewrite forallb_app, IH. simpl. rewrite andb_true_r. apply andb_comm.
Qed.

(** A string trims to nothing exactly when it is blank. *)
Lemma trim_nil_blank x : trim x = [] ↔ blank x = true.
Proof.
  unfold trim, trimEnd, trimStart, blank.
  split.
  - intros H. apply (f_equal (@rev ascii)) in H. rewrite rev_involutive in H.
    simpl in H. apply drop_while_nil in H. rewrite forallb_rev in H.
    apply drop_while_nil in H. rewrite drop_while_idem in H.
    by apply drop_while_nil.
  - intros H. apply drop_while_nil in H. by rewrite H.
Qed.

Lemma trim_lower x : trim (toLowerCase x) = toLowerCase (trim x).
Proof.
  unfold trim, trimEnd, trimStart, toLowerCase.
  rewrite (drop_while_map is_ws lower_char) by apply is_ws_lower.
  rewrite <- map_rev.
  rewrite (drop_while_map is_ws lower_char) by apply is_ws_lower.
  by rewrite map_rev.
Qed.

Lemma trimEnd_keeps_head x a r :
  is_ws a = false → x = a :: r → ∃ r', trimEnd x = a :: r'.
Proof.
  intros Ha ->. unfold trimEnd. simpl.
  destruct (drop_while_split is_ws (rev r ++ [a])) as [pre [Hs Hpre]].
  destruct (drop_while is_ws (rev r ++ [a])) as [|b t] eqn:E.
  - apply drop_while_nil in E. rewrite forallb_app in E. simpl in E.
    rewrite Ha in E. by rewrite andb_false_r in E.
  - assert (Hr : rev (rev r ++ [a]) = rev (pre ++ b :: t)) by by rewrite <- Hs.
    rewrite rev_app_distr, rev_involutive in Hr. simpl in Hr.
    rewrite rev_app_distr in Hr. simpl in Hr.
    destruct (rev t) as [|c t'] eqn:Et; simpl in Hr.
    + injection Hr as -> _. simpl. rewrite Et. by eexists.
    + injection Hr as -> _. simpl. rewrite Et. simpl. by eexists.
Qed.

Lemma trim_idem x : trim (trim x) = trim x.
Proof.
  unfold trim at 2 3. unfold trimStart at 1 2.
  destruct (drop_while is_ws x) as [|a r] eqn:E; [done|].
  pose proof (drop_while_head _ _ _ _ E) as Ha.
  destruct (trimEnd_keeps_head (a :: r) a r Ha eq_refl) as [r' Hr'].
  unfold trim, trimStart. rewrite Hr'. simpl. rewrite Ha. rewrite <- Hr'.
  unfold trimEnd. rewrite rev_involutive. by rewrite drop_while_idem.
Qed.

End RuntimeFacts.

Section NumberFacts.

Lemma SFcompare_antisym a b :
  SFcompare b a = CompOpp <$> SFcompare a b.
Proof.
  destruct a as [sa|sa| |sa ma ea], b as [sb|sb| |sb mb eb]; simpl;
    try reflexivity; try (by destruct sa); try (by destruct sb);
    try (by destruct sa, sb).
  assert (Hm : Pos.compare_cont Eq mb ma = CompOpp (Pos.compare_cont Eq ma mb))
    by (symmetry; apply (Pos.compare_cont_antisym ma mb Eq)).
  destruct sa, sb; simpl; try reflexivity; f_equal;
    rewrite (Z.compare_antisym ea eb), Hm;
    destruct (ea ?= eb)%Z; simpl; reflexivity.
Qed.

Lemma num_eqb_sym a b : num_eqb a b = num_eqb b a.
Proof.
  unfold num_eqb, SFeqb. rewrite (SFcompare_antisym a b).
  by destruct (SFcompare a b) as [[]|].
Qed.

Lemma num_eqb_refl a : isNaN a = false → num_eqb a a = true.
Proof.
  unfold num_eqb, SFeqb.
  destruct a as [sa|sa| |sa ma ea]; simpl; try done; try (by destruct sa).
  intros _. destruct sa; rewrite Z.compare_refl;
    change (Pos.compare_cont Eq ma ma) with (ma ?= ma)%positive;
    by rewrite Pos.compare_refl.
Qed.

Lemma shr_1_nonneg mrs : (0 ≤ shr_m mrs)%Z → (0 ≤ shr_m (shr_1 mrs))%Z.
Proof. destruct mrs as [[|[p|p|]|p] r t]; simpl; lia. Qed.

Lemma iter_shr_1_nonneg p mrs :
  (0 ≤ shr_m mrs)%Z → (0 ≤ shr_m (SpecFloat.iter_pos shr_1 p mrs))%Z.
Proof.
  revert mrs. induction p as [p IH|p IH|]; intros mrs H; simpl.
  - apply IH, IH, shr_1_nonneg, H.
  - apply IH, IH, H.
  - apply shr_1_nonneg, H.
Qed.

Lemma shr_fexp_nonneg m e l :
  (0 ≤ m)%Z → (0 ≤ shr_m (shr_fexp prec emax m e l).1)%Z.
Proof.
  intros H. unfold shr_fexp, shr.
  assert (H0 : (0 ≤ shr_m (shr_record_of_loc m l))%Z)
    by (destruct l as [|[]]; exact H).
  destruct (fexp prec emax (Zdigits2 m + e) - e)%Z; simpl; try exact H0.
  by apply iter_shr_1_nonneg.
Qed.

Lemma round_nearest_even_nonneg m l :
  (0 ≤ m)%Z → (0 ≤ round_nearest_even m l)%Z.
Proof. intros H. destruct l as [|[]]; simpl; try lia. destruct (Z.even m); lia. Qed.

(** Rounding a magnitude never gives NaN. *)
Lemma binary_round_aux_number sx m e l :
  (0 ≤ m)%Z → isNaN (binary_round_aux prec emax sx m e l) = false.
Proof.
  intros H. unfold binary_round_aux.
  pose proof (shr_fexp_nonneg m e l H) as H1.
  destruct (shr_fexp prec emax m e l) as [mrs' e']. simpl in H1.
  pose proof (shr_fexp_nonneg _ e' loc_Exact
    (round_nearest_even_nonneg _ (loc_of_shr_record mrs') H1)) as H2.
  destruct (shr_fexp prec emax _ e' loc_Exact) as [mrs'' e'']. simpl in H2.
  destruct (shr_m mrs'') as [|q|q]; [done| |lia].
  by destruct (e'' <=? emax - prec)%Z.
Qed.

Lemma num_of_Z_number z : isNaN (num_of_Z z) = false.
Proof.
  unfold num_of_Z, binary_normalize, binary_round.
  destruct z as [|p|p]; [done| |].
  - destruct (shl_align p 0 _) as [mz ez]. by apply binary_round_aux_number.
  - destruct (shl_align p 0 _) as [mz ez]. by apply binary_round_aux_number.
Qed.

Lemma num_of_ratio_number neg p q :
  (0 ≤ p)%Z → (0 < q)%Z → isNaN (num_of_ratio neg p q) = false.
Proof.
  intros Hp Hq. unfold num_of_ratio, SFdiv_core_binary.
  set (e' := Z.min _ _). set (m' := match (0 - 0 - e')%Z with Z0 => p | Z.pos _ => _ | Z.neg _ => _ end).
  assert (Hm : (0 ≤ m')%Z).
  { subst m'. destruct (0 - 0 - e')%Z; try lia. by apply Z.shiftl_nonneg. }
  pose proof (Z.div_pos m' q Hm Hq) as Hd. unfold Z.div in Hd.
  destruct (Z.div_eucl m' q) as [d r]. simpl in Hd.
  by apply binary_round_aux_number.
Qed.

Lemma num_of_decimal_number neg m e : isNaN (num_of_decimal neg m e) = false.
Proof.
  unfold num_of_decimal. destruct m as [|p]; [done|].
  destruct (0 <=? e)%Z eqn:He.
  - apply num_of_Z_number.
  - apply num_of_ratio_number; [lia|]. apply Z.pow_pos_nonneg; lia.
Qed.

(** A string that is a numeric literal never converts to NaN. *)
Lemma parse_number_number x n : parse_number x = Some n → isNaN n = false.
Proof.
  unfold parse_number. destruct (trim x) as [|c t]; [by intros [= <-]|].
  destruct (parse_non_decimal (c :: t)) as [n'|] eqn:E.
  - intros [= <-]. unfold parse_non_decimal in E.
    repeat case_match; simplify_eq; apply num_of_Z_number.
  - unfold parse_decimal.
    destruct (match c :: t with
              | "+" :: r => (false, r) | "-" :: r => (true, r) | _ => (false, c :: t)
              end) as [neg u].
    case_bool_decide; [by intros [= <-]|].
    destruct (parse_unsigned_decimal u) as [[m e]|]; [|done].
    intros [= <-]. apply num_of_decimal_number.
Qed.

(** [isNaN] of a string is the failure of its parse. *)
Lemma isNaN_Number x : isNaN (Number x) = negb (is_numeric x).
Proof.
  unfold Number, is_numeric. destruct (parse_number x) as [n|] eqn:E; [|done].
  simpl. by apply parse_number_number in E.
Qed.

End NumberFacts.

Section SegmentFacts.

Ltac char_cases c :=
  destruct c as [[] [] [] [] [] [] [] []]; vm_compute; try done.

Lemma digit_of_decimal c :
  is_digit c = true → digit_of 10 c = Some (N_of_ascii c - 48)%N.
Proof. char_cases c. Qed.

Lemma digit_not_ws c : is_digit c = true → is_ws c = false.
Proof. char_cases c. Qed.

Lemma digit_not_marker c : is_digit c = true → radix_of_marker c = None.
Proof. char_cases c. Qed.

Lemma digits_value_decimal x acc :
  forallb is_digit x = true →
  digits_value 10 acc x
  = Some (fold_left (fun a c => a * 10 + (N_of_ascii c - 48))%N x acc).
Proof.
  revert acc. induction x as [|c x IH]; intros acc H; simpl in *; [done|].
  apply andb_true_iff in H as [Hc Hx].
  rewrite (digit_of_decimal c Hc). by apply IH.
Qed.

Lemma span_digits_all x : forallb is_digit x = true → span_digits x = (x, []).
Proof.
  induction x as [|c x IH]; simpl; [done|].
  intros [Hc Hx]%andb_true_iff. by rewrite Hc, (IH Hx).
Qed.

Lemma drop_while_digits x :
  forallb is_digit x = true → drop_while is_ws x = x.
Proof.
  destruct x as [|c x]; simpl; [done|].
  intros [Hc _]%andb_true_iff. by rewrite (digit_not_ws c Hc).
Qed.

Lemma trim_digits x : forallb is_digit x = true → trim x = x.
Proof.
  intros H. unfold trim, trimStart, trimEnd.
  rewrite (drop_while_digits x H).
  rewrite drop_while_digits by by rewrite forallb_rev.
  apply rev_involutive.
Qed.

Lemma parse_non_decimal_digits c x :
  forallb is_digit x = true → parse_non_decimal (c :: x) = None.
Proof.
  intros H. unfold parse_non_decimal.
  destruct x as [|c' [|c'' x]]; [by char_cases c|by char_cases c|].
  simpl in H. apply andb_true_iff in H as [Hc' _].
  rewrite (digit_not_marker c' Hc').
  by destruct c as [[] [] [] [] [] [] [] []].
Qed.

Lemma parse_decimal_digits c x :
  forallb is_digit (c :: x) = true →
  parse_decimal (c :: x)
  = Some (num_of_decimal false (segment_integer (c :: x)) 0).
Proof.
  intros H. unfold parse_decimal.
  assert (Hsign : match c :: x with
                  | "+" :: r => (false, r) | "-" :: r => (true, r)
                  | _ => (false, c :: x) end = (false, c :: x)).
  { simpl in H. apply andb_true_iff in H as [Hc _]. revert Hc. char_cases c. }
  rewrite Hsign.
  rewrite bool_decide_eq_false_2.
  2:{ intros [= -> _]. simpl in H. discriminate. }
  unfold parse_unsigned_decimal. rewrite (span_digits_all _ H).
  rewrite app_nil_r. rewrite (digits_value_decimal _ _ H). simpl.
  reflexivity.
Qed.

(** [Number] of a segment of digits is the double nearest to the
    integer the digits denote; the empty segment gives 0. *)
Lemma Number_digits x :
  forallb is_digit x = true →
  Number x = num_of_Z (Z.of_N (segment_integer x)).
Proof.
  intros H. destruct x as [|c x]; [done|].
  unfold Number, parse_number. rewrite (trim_digits _ H).
  simpl in H. apply andb_true_iff in H as [Hc Hx].
  rewrite (parse_non_decimal_digits c x Hx).
  rewrite parse_decimal_digits by (simpl; by rewrite Hc, Hx).
  unfold num_of_decimal.
  destruct (segment_integer (c :: x)) as [|p]; [done|].
  simpl (0 <=? 0)%Z. cbv iota. by rewrite Z.pow_0_r, Z.mul_1_r.
Qed.

Lemma split_on_cons sep x : ∃ seg segs, split_on sep x = seg :: segs.
Proof.
  induction x as [|c x [seg [segs IH]]]; simpl; [by eexists _, _|].
  case_bool_decide; [by eexists _, _|]. rewrite IH. by eexists _, _.
Qed.

(** The segments of a version string are digit strings. *)
Lemma version_segments x :
  forallb (fun c => is_digit c || bool_decide (c = ".")) x = true →
  Forall (fun seg => forallb is_digit seg = true) (split_on "." x).
Proof.
  induction x as [|c x IH]; simpl.
  - intros _. by repeat constructor.
  - intros [Hc Hx]%andb_true_iff. specialize (IH Hx).
    case_bool_decide as Hdot.
    + by constructor.
    + destruct (split_on "." x) as [|seg segs]; [by repeat constructor|].
      inversion IH as [|? ? Hseg Hsegs]; subst.
      rewrite orb_false_r in Hc.
      constructor; [|done]. simpl. by rewrite Hc.
Qed.

Lemma version_numbers x :
  isVersion x = true →
  Forall (fun n => isNaN n = false) (map Number (split_on "." x)).
Proof.
  unfold isVersion. intros [_ H]%andb_true_iff.
  apply Forall_map. eapply Forall_impl; [apply (version_segments x H)|].
  intros seg Hseg. simpl. rewrite (Number_digits seg Hseg). apply num_of_Z_number.
Qed.

End SegmentFacts.

Section ComparatorFacts.

Lemma drop_while_snoc {A} (p : A → bool) l a :
  drop_while p (l ++ [a])
  = match drop_while p l with
    | [] => if p a then [] else [a]
    | r => r ++ [a]
    end.
Proof.
  induction l as [|b l IH]; simpl; [done|].
  destruct (p b); [exact IH|done].
Qed.

(** The loop that pops zeros strips the trailing zeros. *)
Lemma pop_loop_strips {A} (zero : A → bool) l :
  rev (drop_while zero (rev l)) = strip_trailing zero l.
Proof.
  induction l as [|a l IH] using rev_ind; [done|].
  rewrite rev_app_distr. simpl.
  assert (Hs : ∀ l, strip_trailing zero (l ++ [a])
      = if zero a then strip_trailing zero l else l ++ [a]).
  { clear. induction l as [|b l IHl]; simpl.
    - by destruct (zero a).
    - rewrite IHl. destruct (zero a); [done|]. by destruct l. }
  rewrite Hs. destruct (zero a); simpl; [exact IH|].
  by rewrite rev_involutive.
Qed.

Lemma pop_zeros_strips a :
  pop_zeros a = strip_trailing (fun n => num_eqb n pos_zero) a.
Proof. apply pop_loop_strips. Qed.

Lemma every_same_at pre la lb :
  length la = length lb →
  every (same_at (pre ++ lb)) (length pre) la
  = forallb (fun p => num_eqb p.1 p.2) (combine la lb).
Proof.
  revert pre lb. induction la as [|v la IH]; intros pre [|w lb] Hlen;
    simpl in *; try done.
  unfold same_at at 1. rewrite list_lookup_middle by done. f_equal.
  replace (pre ++ w :: lb) with ((pre ++ [w]) ++ lb) by by rewrite <- app_assoc.
  replace (S (length pre)) with (length (pre ++ [w]))
    by (rewrite length_app; simpl; lia).
  apply IH. lia.
Qed.

(** The comparison of the code is the comparison of the stripped
    segment lists, length first. *)
Lemma compare_versions_spec ca cb :
  compare_versions ca cb = equal_as_numbers ca cb.
Proof.
  unfold compare_versions, equal_as_numbers, number_segments, same_sequence.
  rewrite !pop_zeros_strips.
  set (la := strip_trailing _ (map Number (split_on "." ca))).
  set (lb := strip_trailing _ (map Number (split_on "." cb))).
  case_bool_decide as Hlen.
  - rewrite Hlen, Nat.eqb_refl. simpl. by apply (every_same_at [] la lb).
  - apply Nat.eqb_neq in Hlen. by rewrite Hlen.
Qed.

Lemma same_sequence_sym {A} (eq : A → A → bool) la lb :
  (∀ x y, eq x y = eq y x) →
  same_sequence eq la lb = same_sequence eq lb la.
Proof.
  intros Heq. unfold same_sequence.
  case_bool_decide as H1; case_bool_decide as H2; try congruence.
  clear H2. revert lb H1. induction la as [|x la IH]; intros [|y lb] H;
    simpl in *; try done.
  rewrite (Heq x y). f_equal. apply IH. lia.
Qed.

Lemma same_sequence_refl {A} (eq : A → A → bool) l :
  Forall (fun x => eq x x = true) l → same_sequence eq l l = true.
Proof.
  intros H. unfold same_sequence. rewrite bool_decide_eq_true_2 by done.
  induction H as [|x l Hx Hl IH]; simpl; [done|]. by rewrite Hx.
Qed.

Lemma strip_trailing_Forall {A} (zero : A → bool) (P : A → Prop) l :
  Forall P l → Forall P (strip_trailing zero l).
Proof.
  induction 1 as [|x l Hx Hl IH]; simpl; [done|].
  destruct (strip_trailing zero l) as [|y r].
  - destruct (zero x); by repeat constructor.
  - by constructor.
Qed.

Lemma equal_as_numbers_refl c :
  isVersion c = true → equal_as_numbers c c = true.
Proof.
  intros H. apply same_sequence_refl, strip_trailing_Forall.
  eapply Forall_impl; [apply (version_numbers c H)|].
  intros n Hn. by apply num_eqb_refl.
Qed.

Lemma compare_versions_sym ca cb :
  compare_versions ca cb = compare_versions cb ca.
Proof.
  rewrite !compare_versions_spec. apply same_sequence_sym, num_eqb_sym.
Qed.

Lemma match_word_lower w x :
  match_word w (toLowerCase x) = toLowerCase <$> match_word w x.
Proof.
  revert x. induction w as [|c w IH]; intros [|d x]; simpl; try done.
  rewrite lower_char_idem. case_bool_decide; [apply IH|done].
Qed.

Lemma match_alternation_lower words x :
  match_alternation words (toLowerCase x)
  = toLowerCase <$> match_alternation words x.
Proof.
  induction words as [|w words IH]; simpl; [done|].
  rewrite match_word_lower. destruct (match_word w x); simpl; [done|apply IH].
Qed.

(** Cleaning does not look at the case of the letters. *)
Lemma clean_lower x : clean (toLowerCase x) = toLowerCase (clean x).
Proof.
  unfold clean, strip_prefix. rewrite match_alternation_lower.
  destruct (match_alternation prefix_words x) as [r|]; simpl.
  - unfold toLowerCase at 1.
    rewrite (drop_while_map is_separator lower_char) by apply is_separator_lower.
    apply trim_lower.
  - apply trim_lower.
Qed.

Lemma version_lower x : isVersion x = true → toLowerCase x = x.
Proof.
  unfold isVersion. intros [_ H]%andb_true_iff.
  induction x as [|c x IH]; simpl in *; [done|].
  apply andb_true_iff in H as [Hc Hx].
  by rewrite (version_char_lower c Hc), (IH Hx).
Qed.

(** Two versions that differ at most in case are the same string. *)
Lemma versions_same_case ca cb :
  isVersion ca = true → isVersion cb = true →
  toLowerCase ca = toLowerCase cb → ca = cb.
Proof.
  intros Ha Hb. by rewrite (version_lower ca Ha), (version_lower cb Hb).
Qed.

Lemma clean_nil : clean [] = [].
Proof. reflexivity. Qed.

Variable Number_toString : number → jsstring.

(** The comparator does not depend on the order of its arguments. *)
Lemma smartCompare_comm a b :
  smartCompare Number_toString a b = smartCompare Number_toString b a.
Proof.
  unfold smartCompare.
  set (sa := trim (String_or_empty Number_toString a)).
  set (sb := trim (String_or_empty Number_toString b)).
  rewrite (orb_comm (str_eqb sa [])).
  rewrite (str_eqb_sym sa sb).
  rewrite (str_eqb_sym (toLowerCase sa) (toLowerCase sb)).
  rewrite (str_eqb_sym (clean sa) (clean sb)).
  rewrite (str_eqb_sym (toLowerCase (clean sa)) (toLowerCase (clean sb))).
  rewrite (andb_comm (isVersion (clean sa))).
  by rewrite (compare_versions_sym (clean sa) (clean sb)).
Qed.

(** On two versions, every stage of the comparator agrees with the
    comparison of the stripped segment lists. *)
Lemma smartCompare_versions a b :
  isVersion (cleaned Number_toString a) = true →
  isVersion (cleaned Number_toString b) = true →
  smartCompare Number_toString a b
  = equal_as_numbers (cleaned Number_toString a) (cleaned Number_toString b).
Proof.
  unfold cleaned, smartCompare.
  set (sa := trim (String_or_empty Number_toString a)).
  set (sb := trim (String_or_empty Number_toString b)).
  intros Ha Hb.
  assert (Hna : str_eqb sa [] = false).
  { apply bool_decide_eq_false. intros E. by rewrite E in Ha. }
  assert (Hnb : str_eqb sb [] = false).
  { apply bool_decide_eq_false. intros E. by rewrite E in Hb. }
  rewrite Hna, Hnb. simpl.
  assert (Hsame : clean sa = clean sb →
    true = equal_as_numbers (clean sa) (clean sb)).
  { intros E. rewrite <- E. symmetry. by apply equal_as_numbers_refl. }
  destruct (str_eqb sa sb) eqn:E1.
  { apply str_eqb_eq in E1. apply Hsame. by rewrite E1. }
  destruct (str_eqb (toLowerCase sa) (toLowerCase sb)) eqn:E2.
  { apply str_eqb_eq in E2. apply Hsame.
    apply versions_same_case; try done. by rewrite <- !clean_lower, E2. }
  destruct (str_eqb (clean sa) (clean sb)) eqn:E3.
  { apply str_eqb_eq in E3. by apply Hsame. }
  destruct (str_eqb (toLowerCase (clean sa)) (toLowerCase (clean sb))) eqn:E4.
  { apply str_eqb_eq in E4. apply Hsame. by apply versions_same_case. }
  rewrite Ha, Hb. simpl. apply compare_versions_spec.
Qed.

End ComparatorFacts.

(** ** Integers below 2^53 are held exactly *)

Section SafeIntegers.

Lemma digits2_pos_bounds p :
  (2 ^ (Z.pos (digits2_pos p) - 1) ≤ Z.pos p < 2 ^ Z.pos (digits2_pos p))%Z.
Proof.
  induction p as [p IH|p IH|]; simpl digits2_pos.
  - rewrite Pos2Z.inj_succ. replace (Z.succ (Z.pos (digits2_pos p)) - 1)%Z
      with (Z.succ (Z.pos (digits2_pos p) - 1))%Z by lia.
    rewrite !Z.pow_succ_r by lia. lia.
  - rewrite Pos2Z.inj_succ. replace (Z.succ (Z.pos (digits2_pos p)) - 1)%Z
      with (Z.succ (Z.pos (digits2_pos p) - 1))%Z by lia.
    rewrite !Z.pow_succ_r by lia. lia.
  - simpl. lia.
Qed.

Lemma digits2_pos_safe p :
  (Z.pos p < 2 ^ 53)%Z → (Z.pos (digits2_pos p) ≤ 53)%Z.
Proof.
  intros Hp. destruct (Z_le_gt_dec (Z.pos (digits2_pos p)) 53) as [|Hgt]; [done|].
  pose proof (digits2_pos_bounds p) as [Hlo _].
  assert (2 ^ 53 ≤ 2 ^ (Z.pos (digits2_pos p) - 1))%Z
    by (apply Z.pow_le_mono_r; lia).
  lia.
Qed.

Lemma iter_xO_value p k : Z.pos (Pos.iter xO p k) = (Z.pos p * 2 ^ Z.pos k)%Z.
Proof.
  induction k as [|k IH] using Pos.peano_ind.
  - simpl. lia.
  - rewrite Pos.iter_succ, Pos2Z.inj_succ, Z.pow_succ_r by lia.
    rewrite Pos2Z.inj_xO, IH. lia.
Qed.

Lemma iter_xO_digits p k :
  digits2_pos (Pos.iter xO p k) = (digits2_pos p + k)%positive.
Proof.
  induction k as [|k IH] using Pos.peano_ind.
  - simpl. lia.
  - rewrite Pos.iter_succ. simpl. rewrite IH. lia.
Qed.

(** A mantissa of 53 bits with an exponent in range is already
    rounded. *)
Lemma binary_round_aux_canonical m e :
  Z.pos (digits2_pos m) = 53%Z → (-1074 ≤ e ≤ 971)%Z →
  binary_round_aux prec emax false (Z.pos m) e loc_Exact = S754_finite false m e.
Proof.
  intros Hd He.
  assert (Hshift : (fexp prec emax (Z.pos (digits2_pos m) + e) - e = 0)%Z).
  { rewrite Hd. unfold fexp, SpecFloat.emin, prec, emax. lia. }
  unfold binary_round_aux, shr_fexp. simpl Zdigits2. rewrite Hshift. simpl.
  rewrite Hshift. simpl.
  replace (e <=? emax - prec)%Z with true; [done|].
  symmetry. apply Z.leb_le. unfold emax, prec. lia.
Qed.

(** The double of a positive integer below 2^53: its digits, moved up
    to 53 bits. *)
Lemma num_of_Z_safe p :
  (Z.pos p < 2 ^ 53)%Z →
  ∃ m, num_of_Z (Z.pos p) = S754_finite false m (Z.pos (digits2_pos p) - 53)
     ∧ Z.pos m = (Z.pos p * 2 ^ (53 - Z.pos (digits2_pos p)))%Z.
Proof.
  intros Hp. pose proof (digits2_pos_safe p Hp) as Hd.
  unfold num_of_Z, binary_normalize, binary_round, shl_align.
  assert (Hf : fexp prec emax (Z.pos (digits2_pos p) + 0)
             = (Z.pos (digits2_pos p) - 53)%Z).
  { unfold fexp, SpecFloat.emin, prec, emax. lia. }
  rewrite Hf.
  destruct (Z.pos (digits2_pos p) - 53 - 0)%Z as [|k|k] eqn:Hk; [|lia|].
  - exists p. split.
    + replace (Z.pos (digits2_pos p) - 53)%Z with 0%Z by lia.
      apply binary_round_aux_canonical; lia.
    + replace (53 - Z.pos (digits2_pos p))%Z with 0%Z by lia. lia.
  - exists (Pos.iter xO p k). split.
    + apply binary_round_aux_canonical; [|lia].
      rewrite iter_xO_digits. lia.
    + rewrite iter_xO_value. f_equal. f_equal. lia.
Qed.

(** On integers below 2^53, [===] on the doubles is equality of the
    integers. *)
Lemma num_of_Z_exact (a b : N) :
  (a < 2 ^ 53)%N → (b < 2 ^ 53)%N →
  num_eqb (num_of_Z (Z.of_N a)) (num_of_Z (Z.of_N b)) = (a =? b)%N.
Proof.
  intros Ha Hb.
  destruct (N.eqb_spec a b) as [->|Hne].
  { apply num_eqb_refl, num_of_Z_number. }
  assert (Hz : ∀ p, (Z.pos p < 2 ^ 53)%Z →
    num_eqb (num_of_Z (Z.pos p)) (num_of_Z 0) = false).
  { intros p Hp. destruct (num_of_Z_safe p Hp) as [m [-> _]]. done. }
  destruct a as [|p], b as [|q]; simpl Z.of_N; try done.
  - rewrite num_eqb_sym. apply Hz. lia.
  - apply Hz. lia.
  - destruct (num_of_Z_safe p) as [m [-> Hm]]; [lia|].
    destruct (num_of_Z_safe q) as [n [-> Hn]]; [lia|].
    unfold num_eqb, SFeqb. simpl.
    destruct (Z.compare_spec (Z.pos (digits2_pos p) - 53)
                             (Z.pos (digits2_pos q) - 53)) as [He| |]; try done.
    change (Pos.compare_cont Eq m n) with (m ?= n)%positive.
    destruct (Pos.compare_spec m n) as [Hmn| |]; try done.
    exfalso. apply Hne. f_equal.
    assert (Hdig : Z.pos (digits2_pos p) = Z.pos (digits2_pos q)) by lia.
    rewrite Hdig in Hm. subst n.
    assert (0 < 2 ^ (53 - Z.pos (digits2_pos q)))%Z
      by (apply Z.pow_pos_nonneg; pose proof (digits2_pos_safe q); lia).
    nia.
Qed.

Lemma strip_trailing_map {A B} (f : A → B) (za : A → bool) (zb : B → bool) l :
  Forall (fun x => zb (f x) = za x) l →
  strip_trailing zb (map f l) = map f (strip_trailing za l).
Proof.
  induction 1 as [|x l Hx Hl IH]; simpl; [done|].
  rewrite IH, Hx. destruct (strip_trailing za l); simpl; [|done].
  by destruct (za x).
Qed.

Lemma same_sequence_map {A B} (f : A → B) (ea : A → A → bool)
    (eb : B → B → bool) (P : A → Prop) la lb :
  (∀ x y, P x → P y → eb (f x) (f y) = ea x y) →
  Forall P la → Forall P lb →
  same_sequence eb (map f la) (map f lb) = same_sequence ea la lb.
Proof.
  intros Hf Hla Hlb. unfold same_sequence. rewrite !length_map.
  case_bool_decide as Hlen; [|done]. clear Hlen.
  revert lb Hlb. induction Hla as [|x la Hx Hla IH]; intros lb Hlb; [done|].
  destruct Hlb as [|y lb Hy Hlb]; [done|]. simpl.
  by rewrite (Hf x y Hx Hy), (IH lb Hlb).
Qed.

(** On versions whose segments are all below 2^53, comparing the
    Number segments is comparing the integer segments. *)
Lemma equal_as_numbers_exact ca cb :
  isVersion ca = true → isVersion cb = true →
  safe_segments ca → safe_segments cb →
  equal_as_numbers ca cb = equal_as_integers ca cb.
Proof.
  intros Hva Hvb Hsa Hsb.
  assert (Hseg : ∀ c, isVersion c = true → safe_segments c →
    number_segments c
    = map (fun n => num_of_Z (Z.of_N n)) (integer_segments c)
    ∧ Forall (fun n => (n < 2 ^ 53)%N) (integer_segments c)).
  { intros c Hv Hs. unfold number_segments, integer_segments.
    apply andb_true_iff in Hv as [_ Hv]. apply version_segments in Hv.
    assert (Hsmall : Forall (fun n => (n < 2 ^ 53)%N)
                        (map segment_integer (split_on "." c)))
      by by apply Forall_map.
    split; [|by apply strip_trailing_Forall].
    replace (map Number (split_on "." c))
      with (map (fun n => num_of_Z (Z.of_N n))
                (map segment_integer (split_on "." c))).
    2:{ rewrite map_map. apply map_ext_Forall.
        eapply Forall_impl; [exact Hv|]. intros seg Hd. simpl.
        by rewrite (Number_digits seg Hd). }
    apply strip_trailing_map.
    eapply Forall_impl; [exact Hsmall|]. intros n Hn. simpl.
    change pos_zero with (num_of_Z (Z.of_N 0)).
    rewrite num_of_Z_exact by done. apply N.eqb_sym. }
  unfold equal_as_numbers, equal_as_integers.
  destruct (Hseg ca Hva Hsa) as [-> Fa], (Hseg cb Hvb Hsb) as [-> Fb].
  apply (same_sequence_map _ N.eqb num_eqb (fun n => (n < 2 ^ 53)%N)); try done.
  intros x y Hx Hy. by apply num_of_Z_exact.
Qed.

End SafeIntegers.

(** ** Facts about the parser *)

Section ParserFacts.

Lemma scan_fields line st :
  length (result (fold_left scan_char line st))
  = length (result st) + unquoted_commas (inQuotes st) line.
Proof.
  revert st. induction line as [|c line IH]; intros st; simpl; [lia|].
  rewrite IH. unfold scan_char.
  case_bool_decide; simpl; [lia|].
  case_bool_decide; simpl; [|lia].
  destruct (inQuotes st); simpl; [lia|]. rewrite length_app. simpl. lia.
Qed.

(** A line splits into as many fields as it has separators, and one. *)
Lemma splitLine_length line : length (splitLine line) = field_count line.
Proof.
  unfold splitLine, field_count. rewrite length_app, scan_fields. simpl. lia.
Qed.

Lemma drop_while_elem {A} (p : A → bool) l a : a ∈ drop_while p l → a ∈ l.
Proof.
  induction l as [|b l IH]; simpl; [done|].
  destruct (p b); [|done]. intros H. right. by apply IH.
Qed.

Lemma elem_of_rev {A} (l : list A) a : a ∈ rev l ↔ a ∈ l.
Proof. rewrite !list_elem_of_In. symmetry. apply in_rev. Qed.

Lemma trim_elem x c : c ∈ trim x → c ∈ x.
Proof.
  unfold trim, trimEnd, trimStart. intros H.
  apply elem_of_rev, drop_while_elem, elem_of_rev, drop_while_elem in H. done.
Qed.

Lemma scan_char_clean st c : scan_clean st → scan_clean (scan_char st c).
Proof.
  intros [Hres Hcur]. unfold scan_char, scan_clean.
  case_bool_decide as Hq; simpl; [done|].
  destruct (bool_decide (c = ",") && negb (inQuotes st)); simpl.
  - split; [|by apply not_elem_of_nil].
    apply Forall_app. split; [done|]. constructor; [|done].
    split; [|apply trim_idem]. intros H. by apply Hcur, trim_elem.
  - split; [done|]. rewrite elem_of_app, list_elem_of_singleton.
    intros [?|?]; [done|]. by apply Hq.
Qed.

Lemma scan_clean_fold line st :
  scan_clean st → scan_clean (fold_left scan_char line st).
Proof.
  revert st. induction line as [|c line IH]; intros st H; simpl; [done|].
  by apply IH, scan_char_clean.
Qed.

(** The fields of a line hold no quote and are trimmed. *)
Lemma splitLine_fields line :
  Forall (fun f => ("034" ∉ f) ∧ trim f = f) (splitLine line).
Proof.
  unfold splitLine.
  destruct (scan_clean_fold line scan_start) as [Hres Hcur].
  { split; [constructor|]. apply not_elem_of_nil. }
  apply Forall_app. split; [done|]. constructor; [|done].
  split; [|apply trim_idem]. intros H. by apply Hcur, trim_elem.
Qed.

Lemma strip_quotes_none val : "034" ∉ val → strip_quotes val = val.
Proof.
  intros H. unfold strip_quotes.
  assert (Hh : match val with "034" :: r => r | _ => val end = val).
  { destruct val as [|c r]; [done|].
    destruct (decide (c = "034")) as [->|Hc]; [exfalso; apply H; left|].
    by destruct c as [[] [] [] [] [] [] [] []]. }
  rewrite Hh.
  destruct (rev val) as [|c r] eqn:E; [done|].
  destruct (decide (c = "034")) as [->|Hc].
  - exfalso. apply H, elem_of_rev. rewrite E. left.
  - by destruct c as [[] [] [] [] [] [] [] []].
Qed.

(** A field without quotes is stored as the specification says. *)
Lemma cell_value_stored val : "034" ∉ val → cell_value (Some val) = stored val.
Proof.
  intros H. unfold cell_value, stored. simpl.
  rewrite (strip_quotes_none val H). by rewrite isNaN_Number, negb_involutive.
Qed.

Lemma cell_value_field line i :
  cell_value (splitLine line !! i) = stored (default [] (splitLine line !! i)).
Proof.
  destruct (splitLine line !! i) as [f|] eqn:E; [|done].
  apply cell_value_stored.
  pose proof (splitLine_fields line) as H.
  rewrite Forall_lookup in H. by destruct (H i f E).
Qed.

Lemma set_lookup o k v h :
  set o k v !! h
  = if bool_decide (k = h ∧ k ≠ s "__proto__") then Some v else o !! h.
Proof.
  unfold set. case_bool_decide as Hp.
  - rewrite bool_decide_eq_false_2; [done|]. by intros [_ ?].
  - destruct (decide (k = h)) as [->|Hk].
    + rewrite bool_decide_eq_true_2 by done. apply lookup_insert_eq.
    + rewrite bool_decide_eq_false_2 by (by intros [? _]).
      by apply lookup_insert_ne.
Qed.

(** A name that is no header, or that cannot be assigned, keeps what
    the row had. *)
Lemma fill_row_other values hs index row h :
  h ∉ hs ∨ h = s "__proto__" →
  fill_row values index hs row !! h = row !! h.
Proof.
  revert index row. induction hs as [|header hs IH]; intros index row H;
    simpl; [done|].
  rewrite IH.
  - rewrite set_lookup, bool_decide_eq_false_2; [done|].
    intros [-> Hp]. destruct H as [H|H]; [|done]. apply H. left.
  - destruct H as [H|H]; [left|by right]. intros ?. apply H. by right.
Qed.

(** The last header of a name decides the value under it. *)
Lemma fill_row_last values hs index row i h :
  hs !! i = Some h →
  (∀ j, i < j → hs !! j ≠ Some h) →
  h ≠ s "__proto__" →
  fill_row values index hs row !! h = Some (cell_value (values !! (index + i))).
Proof.
  revert index row i. induction hs as [|header hs IH]; intros index row i Hi Hlast Hp;
    [done|].
  destruct i as [|i]; simpl in *.
  - injection Hi as ->. rewrite fill_row_other.
    + rewrite set_lookup, bool_decide_eq_true_2 by done.
      by rewrite Nat.add_0_r.
    + left. intros [j Hj]%list_elem_of_lookup.
      apply (Hlast (S j)); [lia|done].
  - rewrite (IH (S index) _ i Hi).
    + by replace (S index + i) with (index + S i) by lia.
    + intros j Hj. apply (Hlast (S j)). lia.
    + done.
Qed.

Lemma last_occurrence (hs : list jsstring) h :
  h ∈ hs → ∃ i, hs !! i = Some h ∧ ∀ j, i < j → hs !! j ≠ Some h.
Proof.
  induction hs as [|header hs IH]; [by intros ?%elem_of_nil|].
  intros Hin. destruct (decide (h ∈ hs)) as [Hhs|Hhs].
  - destruct (IH Hhs) as [i [Hi Hlast]]. exists (S i). split; [done|].
    intros [|j] Hj; [lia|]. simpl. apply Hlast. lia.
  - apply elem_of_cons in Hin as [->|?]; [|done].
    exists 0. split; [done|]. intros [|j] Hj; [lia|]. simpl.
    intros Hh. apply Hhs. by apply list_elem_of_lookup_2 in Hh.
Qed.

(** Every entry of a row is the stored form of the field at the
    position of its header. *)
Lemma make_row_paired hs line h v :
  make_row hs line !! h = Some v → paired hs (splitLine line) h v.
Proof.
  unfold make_row. intros Hv.
  destruct (decide (h ∈ hs)) as [Hin|Hout].
  2:{ rewrite fill_row_other in Hv by by left. done. }
  destruct (decide (h = s "__proto__")) as [Hp|Hp].
  { rewrite fill_row_other in Hv by by right. done. }
  destruct (last_occurrence hs h Hin) as [i [Hi Hlast]].
  rewrite (fill_row_last _ hs 0 ∅ i h Hi Hlast Hp) in Hv.
  injection Hv as <-. exists i. repeat split; try done.
  apply cell_value_field.
Qed.

Lemma make_row_dom hs line : dom (make_row hs line) ⊆ list_to_set hs.
Proof.
  intros h Hh. apply elem_of_dom in Hh as [v Hv].
  apply elem_of_list_to_set.
  destruct (make_row_paired hs line h v Hv) as [i [Hi _]].
  by apply list_elem_of_lookup_2 in Hi.
Qed.

Lemma make_row_defined hs line i h :
  hs !! i = Some h → h ≠ s "__proto__" → is_Some (make_row hs line !! h).
Proof.
  intros Hi Hp.
  destruct (last_occurrence hs h) as [k [Hk Hlast]].
  { by apply list_elem_of_lookup_2 in Hi. }
  unfold make_row. rewrite (fill_row_last _ hs 0 ∅ k h Hk Hlast Hp). by eexists.
Qed.

(** The lines kept are the lines that are not blank. *)
Lemma content_lines_not_blank csvText :
  content_lines csvText
  = List.filter (fun line => negb (blank line)) (split_lines csvText).
Proof.
  unfold content_lines. apply List.filter_ext. intros line. f_equal.
  destruct (blank line) eqn:E.
  - apply str_eqb_eq. by apply trim_nil_blank.
  - apply bool_decide_eq_false. intros H. apply trim_nil_blank in H. congruence.
Qed.

End ParserFacts.

(** ** Facts about column resolution *)

Section ResolverFacts.

Lemma alias_matches_spec aliases h :
  alias_matches aliases h = true ↔ header_matches aliases h.
Proof.
  unfold alias_matches, header_matches. rewrite existsb_exists.
  split; intros [a [Ha Hm]]; exists a.
  - apply list_elem_of_In in Ha. by apply str_eqb_eq in Hm.
  - apply list_elem_of_In in Ha. by apply str_eqb_eq in Hm.
Qed.

Lemma alias_matches_false aliases h :
  alias_matches aliases h = false ↔ ¬ header_matches aliases h.
Proof.
  rewrite <- alias_matches_spec. by destruct (alias_matches aliases h).
Qed.

Lemma find_first {A} (p : A → bool) l x :
  List.find p l = Some x ↔
  ∃ pre post, l = pre ++ x :: post ∧ p x = true ∧ ∀ y, y ∈ pre → p y = false.
Proof.
  induction l as [|a l IH]; simpl.
  - split; [done|]. intros [[|??] [? [? _]]]; done.
  - destruct (p a) eqn:Ha.
    + split.
      * intros [= <-]. exists [], l. repeat split; try done.
        by intros y ?%elem_of_nil.
      * intros [[|b pre] [post [Hl [Hx Hpre]]]]; simpl in Hl.
        -- by injection Hl as ->.
        -- injection Hl as -> _. rewrite Hpre in Ha; [done|left].
    + rewrite IH. split.
      * intros [pre [post [-> [Hx Hpre]]]]. exists (a :: pre), post.
        repeat split; try done. intros y [->|?]%elem_of_cons; auto.
      * intros [[|b pre] [post [Hl [Hx Hpre]]]]; simpl in Hl.
        -- injection Hl as -> _. congruence.
        -- injection Hl as -> ->. exists pre, post. repeat split; try done.
           intros y Hy. apply Hpre. by right.
Qed.

Lemma find_nothing {A} (p : A → bool) l :
  List.find p l = None ↔ ∀ y, y ∈ l → p y = false.
Proof.
  induction l as [|a l IH]; simpl.
  - split; [|done]. by intros _ y ?%elem_of_nil.
  - destruct (p a) eqn:Ha.
    + split; [done|]. intros H. rewrite H in Ha; [done|left].
    + rewrite IH. split.
      * intros H y [->|?]%elem_of_cons; auto.
      * intros H y Hy. apply H. by right.
Qed.

Lemma match_alternation_cons w words x :
  match_alternation (w :: words) x
  = match match_word w x with
    | Some r => Some r
    | None => match_alternation words x
    end.
Proof. reflexivity. Qed.

(** Where "v" does not match, "ver" and "version" do not either. *)
Lemma v_tried_first x :
  match_word (s "v") x = None →
  match_word (s "ver") x = None ∧ match_word (s "version") x = None.
Proof.
  destruct x as [|d x]; [done|]. simpl.
  by case_bool_decide.
Qed.

Lemma findCol_find headers aliases :
  findCol headers aliases = List.find (alias_matches aliases) headers.
Proof. by destruct headers. Qed.

End ResolverFacts.

(** ** The claims *)

Section Claims.

(** The comparator is stated for any printing of numbers. *)
Variable Number_toString : number → jsstring.

Local Abbreviation smartCompare := (App.smartCompare Number_toString).
Local Abbreviation cleaned := (Spec.cleaned Number_toString).

(** C1, as amended.  For all inputs whose cleaned strings are both
    made of digits and dots only, [smartCompare] decides equality by
    splitting each cleaned string on the dot, converting every segment
    with Number, stripping the trailing segments that are zero, then
    answering false if the two lists differ in length and the
    elementwise equality otherwise.  Number gives a double: when every
    segment is below 2^53 the comparison is the comparison of the
    integers the segments denote.  "RC 1.0.0" equals "Build 1",
    "v2.1" equals "2.1.0", and "1.2" does not equal "1.3". *)
Theorem smartCompare_version_segments (a b : value)
    (Ha : isVersion (cleaned a) = true) (Hb : isVersion (cleaned b) = true) :
  smartCompare a b = equal_as_numbers (cleaned a) (cleaned b)
  ∧ (safe_segments (cleaned a) → safe_segments (cleaned b) →
     smartCompare a b = equal_as_integers (cleaned a) (cleaned b))
  ∧ smartCompare (VStr (s "RC 1.0.0")) (VStr (s "Build 1")) = true
  ∧ smartCompare (VStr (s "v2.1")) (VStr (s "2.1.0")) = true
  ∧ smartCompare (VStr (s "1.2")) (VStr (s "1.3")) = false.
Proof.
  split; [by apply smartCompare_versions|].
  split; [|by vm_compute].
  intros Hsa Hsb. rewrite smartCompare_versions by done.
  by apply equal_as_numbers_exact.
Qed.

(** C2.  The comparator is total and symmetric on strings: it returns
    a boolean for every pair, and the same one when the arguments are
    exchanged; so do its prefix-cleaned stage and its version-segment
    stage. *)
Theorem smartCompare_total_symmetric (a b : jsstring) :
  (∃ r : bool, smartCompare (VStr a) (VStr b) = r)
  ∧ smartCompare (VStr a) (VStr b) = smartCompare (VStr b) (VStr a)
  ∧ str_eqb (clean a) (clean b) = str_eqb (clean b) (clean a)
  ∧ compare_versions (clean a) (clean b) = compare_versions (clean b) (clean a).
Proof.
  split; [by eexists|]. split; [apply smartCompare_comm|].
  split; [apply str_eqb_sym|apply compare_versions_sym].
Qed.

(** C3.  The lines kept are the lines that are not blank; the first
    of them is the header line.  With N fields in it and M lines after
    it, the table has N headers and M rows; with no line left, the
    table is empty.  A trailing blank line is dropped. *)
Theorem parseCSV_counts (csvText : jsstring) :
  content_lines csvText
    = List.filter (fun line => negb (blank line)) (split_lines csvText)
  ∧ (content_lines csvText = [] →
     parseCSV csvText = {| headers := []; rows := [] |})
  ∧ (∀ first rest, content_lines csvText = first :: rest →
       headers (parseCSV csvText) = splitLine first
       ∧ length (headers (parseCSV csvText)) = field_count first
       ∧ length (rows (parseCSV csvText)) = length rest)
  ∧ parseCSV [] = {| headers := []; rows := [] |}
  ∧ content_lines (s "a,b,c" ++ "010" :: "010" :: s "1,2,3" ++ "013" :: "010"
                     :: s "   " ++ "010" :: s "4,5" ++ "010" :: [])
    = [s "a,b,c"; s "1,2,3"; s "4,5"].
Proof.
  split; [apply content_lines_not_blank|].
  split; [|split; [|split; [done|by vm_compute]]].
  - intros H. unfold parseCSV. by rewrite H.
  - intros first rest H. unfold parseCSV. rewrite H. simpl.
    split; [done|]. split; [apply splitLine_length|apply length_map].
Qed.

(** C4.  In the scan of a line, a quote flips [inQuotes] and is not
    copied; a comma outside quotes pushes the trimmed field and starts
    a new one; any other character, a comma inside quotes too, is
    appended to the field.  No field of a line holds a quote, and the
    line a,"b,c",d has the three fields a / b,c / d. *)
Theorem splitLine_scan (st : scan) (c : ascii) :
  scan_char st "034"
    = {| result := result st; cur := cur st; inQuotes := negb (inQuotes st) |}
  ∧ (inQuotes st = false →
     scan_char st ","
     = {| result := result st ++ [trim (cur st)]; cur := []; inQuotes := false |})
  ∧ (c ≠ "034" → c ≠ "," ∨ inQuotes st = true →
     scan_char st c
     = {| result := result st; cur := cur st ++ [c]; inQuotes := inQuotes st |})
  ∧ (∀ line f, f ∈ splitLine line → "034" ∉ f)
  ∧ splitLine (s "a," ++ "034" :: s "b,c" ++ "034" :: s ",d")
    = [s "a"; s "b,c"; s "d"].
Proof.
  split; [done|]. split.
  { intros H. unfold scan_char. simpl. by rewrite H. }
  split.
  { intros Hq Hc. unfold scan_char. rewrite bool_decide_eq_false_2 by done.
    destruct Hc as [Hc|Hc].
    - by rewrite (bool_decide_eq_false_2 _ Hc).
    - rewrite Hc. by rewrite andb_false_r. }
  split; [|by vm_compute].
  intros line f Hf. pose proof (splitLine_fields line) as H.
  rewrite Forall_forall in H. by destruct (H f Hf).
Qed.


(** C6.  [findCol] returns the first header, in the order of the
    header list, that some alias equals case-insensitively once the
    header is trimmed (the aliases are not trimmed); with no such
    header, and with no header at all, it returns the sentinel.  The
    match is of whole strings: the header "Build Version " resolves
    against the alias "build version", and not against "build". *)
Theorem findCol_first_match (headers aliases : list jsstring) :
  (∀ h, findCol headers aliases = Some h ↔
        ∃ pre post, headers = pre ++ h :: post
                  ∧ header_matches aliases h
                  ∧ ∀ h', h' ∈ pre → ¬ header_matches aliases h')
  ∧ (findCol headers aliases = None ↔
     ∀ h, h ∈ headers → ¬ header_matches aliases h)
  ∧ findCol [] aliases = None
  ∧ findCol [s "Build Version "] [s "x"; s "build version"]
    = Some (s "Build Version ")
  ∧ findCol [s "Build Version "] [s "build"; s "build version "] = None.
Proof.
  split; [|split; [|split; [done|by vm_compute]]].
  - intros h. rewrite findCol_find, find_first.
    split; intros [pre [post [Hl [Hh Hpre]]]]; exists pre, post;
      (split; [done|]).
    + split; [by apply alias_matches_spec|].
      intros h' Hh'. by apply alias_matches_false, Hpre.
    + split; [by apply alias_matches_spec|].
      intros h' Hh'. by apply alias_matches_false, Hpre.
  - rewrite findCol_find, find_nothing.
    split; intros H h Hh; by apply alias_matches_false, H.
Qed.

(** C7, as amended.  [getVal] is total.  It returns 0 when the header
    is the sentinel or the empty string, when the record has no entry
    or an undefined one under the header, and when the cell does not
    coerce to a number; otherwise it returns the cell coerced to a
    number (a zero of either sign as 0). *)
Theorem getVal_total (row : object) (header : option jsstring) :
  (∃ n, getVal row header = n)
  ∧ (header = None ∨ header = Some [] → getVal row header = pos_zero)
  ∧ (∀ h, header = Some h → row !! h = None ∨ row !! h = Some VUndefined →
       getVal row header = pos_zero)
  ∧ (∀ h v, header = Some h → row !! h = Some v → isNaN (ToNumber v) = true →
       getVal row header = pos_zero)
  ∧ (∀ h v, header = Some h → h ≠ [] → row !! h = Some v → v ≠ VUndefined →
       isNaN (ToNumber v) = false →
       num_eqb (getVal row header) (ToNumber v) = true
       ∧ (num_falsy (ToNumber v) = false → getVal row header = ToNumber v)).
Proof.
  split; [by eexists|]. split; [by intros [->| ->]|]. split.
  { intros h -> Hrow. unfold getVal, get.
    destruct (str_eqb h []); [done|]. simpl.
    destruct Hrow as [-> | ->]; [|done].
    by destruct (bool_decide (h ∈ prototype_names)). }
  split.
  { intros h v -> Hrow Hnan. unfold getVal, get. rewrite Hrow.
    destruct (str_eqb h [] || is_undefined (Own v)); [done|].
    simpl. unfold or_zero. by destruct (ToNumber v). }
  intros h v -> Hh Hrow Hv Hnan. unfold getVal, get. rewrite Hrow.
  unfold str_eqb. rewrite (bool_decide_eq_false_2 _ Hh). simpl.
  destruct v as [|n|x]; [done| |]; simpl; unfold or_zero.
  - simpl in Hnan. destruct n as [[]|[]| |[] m e]; try done.
    all: split; [|done]. all: apply num_eqb_refl; done.
  - simpl in Hnan. destruct (Number x) as [[]|[]| |[] m e]; try done.
    all: split; [|done]. all: apply num_eqb_refl; done.
Qed.

(** C8, as amended.  Every row of the table has its keys among the
    headers.  Each row comes from a data line, and the values are
    paired with the headers by index: under a header (the last of its
    name) the row holds the stored form of the field at that index,
    the empty string where the line has fewer fields than headers; the
    row holds nothing else, so the fields beyond the headers are
    discarded; and a header named [__proto__] gets no entry. *)
Theorem rows_keyed_by_headers (csvText : jsstring) (row : object) :
  row ∈ rows (parseCSV csvText) →
  dom row ⊆ list_to_set (headers (parseCSV csvText))
  ∧ ∃ line,
      line ∈ tail (content_lines csvText)
      ∧ row = make_row (headers (parseCSV csvText)) line
      ∧ (∀ i h, headers (parseCSV csvText) !! i = Some h →
           (∀ j, i < j → headers (parseCSV csvText) !! j ≠ Some h) →
           h ≠ s "__proto__" →
           row !! h = Some (stored (default [] (splitLine line !! i)))
           ∧ (length (splitLine line) ≤ i → row !! h = Some (VStr [])))
      ∧ (∀ h v, row !! h = Some v →
           paired (headers (parseCSV csvText)) (splitLine line) h v)
      ∧ row !! s "__proto__" = None.
Proof.
  unfold parseCSV. destruct (content_lines csvText) as [|first rest]; simpl.
  { by intros ?%elem_of_nil. }
  intros Hrow. apply list_elem_of_In, in_map_iff in Hrow as [line [<- Hline]].
  split; [apply make_row_dom|].
  exists line. split; [by apply list_elem_of_In|]. split; [done|].
  split; [|split; [apply make_row_paired|]].
  - intros i h Hi Hlast Hp.
    assert (Hval : make_row (splitLine first) line !! h
                   = Some (stored (default [] (splitLine line !! i)))).
    { unfold make_row.
      rewrite (fill_row_last _ _ 0 ∅ i h Hi Hlast Hp). simpl.
      by rewrite cell_value_field. }
    split; [done|]. intros Hshort. rewrite Hval.
    by rewrite lookup_ge_None_2.
  - unfold make_row. by rewrite fill_row_other by by right.
Qed.

(** C9.  In the alternation the word "v" stands before "ver" and
    "version", which are never chosen: a string that begins with "ver"
    loses its first letter only, and no separator after it.  So
    [clean] of "Version 1.0" is "ersion 1.0", and "Version 1.0" does
    not equal "1.0". *)
Theorem v_shadows_ver (x r : jsstring) :
  match_word (s "ver") x = Some r →
  strip_prefix x = drop 1 x
  ∧ clean x = trim (drop 1 x)
  ∧ (∀ y, match_alternation prefix_words y
          = match_alternation [s "rc"; s "build"; s "v"] y)
  ∧ clean (s "Version 1.0") = s "ersion 1.0"
  ∧ smartCompare (VStr (s "Version 1.0")) (VStr (s "1.0")) = false.
Proof.
  intros Hver.
  assert (Hstrip : strip_prefix x = drop 1 x).
  { destruct x as [|d1 [|d2 x]]; try done; simpl in Hver.
    { by case_bool_decide. }
    destruct (decide (lower_char d1 = "v")) as [H1|H1];
      [|by rewrite (bool_decide_eq_false_2 _ H1) in Hver].
    rewrite (bool_decide_eq_true_2 _ H1) in Hver.
    destruct (decide (lower_char d2 = "e")) as [H2|H2];
      [|by rewrite (bool_decide_eq_false_2 _ H2) in Hver].
    unfold strip_prefix.
    change prefix_words
      with [s "rc"; s "build"; s "v"; s "ver"; s "version"].
    rewrite !match_alternation_cons. simpl. rewrite H1. simpl.
    by rewrite (letter_e_not_separator d2 H2). }
  split; [done|]. split; [unfold clean; by rewrite Hstrip|].
  split; [|by vm_compute].
  intros y.
  change prefix_words
    with [s "rc"; s "build"; s "v"; s "ver"; s "version"].
  rewrite !match_alternation_cons.
  destruct (match_word (s "rc") y); [done|].
  destruct (match_word (s "build") y); [done|].
  destruct (match_word (s "v") y) eqn:E; [done|].
  by destruct (v_tried_first y E) as [-> ->].
Qed.

(** C10.  An argument that is falsy is taken as the empty string, and
    the empty guard answers false: so for the number 0, which the
    parser stores for the cell 0, compared with the string 0 or with
    itself, although the string 0 equals itself. *)
Theorem falsy_never_equal (a b : value) :
  truthy a = false ∨ truthy b = false →
  smartCompare a b = false
  ∧ String_or_empty Number_toString (VNum pos_zero) = []
  ∧ smartCompare (VNum pos_zero) (VStr (s "0")) = false
  ∧ smartCompare (VNum pos_zero) (VNum pos_zero) = false
  ∧ cell_value (Some (s "0")) = VNum pos_zero
  ∧ smartCompare (VStr (s "0")) (VStr (s "0")) = true.
Proof.
  intros H. split; [|by vm_compute].
  unfold App.smartCompare, String_or_empty.
  destruct H as [-> | ->]; simpl; [done|]. by rewrite orb_true_r.
Qed.

End Claims.

(** ** Concrete inputs *)

(** C1: the integer reading of the segments fails.  The two segments
    9007199254740993 and 9007199254740992 are different integers and
    the same double, and the comparator answers true. *)
Lemma smartCompare_rounds_segments :
  isVersion (cleaned no_print (VStr (s "9007199254740993"))) = true
  ∧ isVersion (cleaned no_print (VStr (s "9007199254740992"))) = true
  ∧ smartCompare no_print (VStr (s "9007199254740993"))
                          (VStr (s "9007199254740992")) = true
  ∧ equal_as_integers (cleaned no_print (VStr (s "9007199254740993")))
                      (cleaned no_print (VStr (s "9007199254740992"))) = false.
Proof. by vm_compute. Qed.

Lemma smartCompare_version_segments_witness :
  smartCompare no_print (VStr (s "RC 1.0.0")) (VStr (s "Build 1"))
  = equal_as_integers (s "1.0.0") (s "1").
Proof.
  refine (proj1 (proj2 (smartCompare_version_segments no_print
            (VStr (s "RC 1.0.0")) (VStr (s "Build 1")) _ _)) _ _).
  - vm_compute. reflexivity.
  - vm_compute. reflexivity.
  - unfold safe_segments. repeat constructor.
  - unfold safe_segments. repeat constructor.
Defined.

Lemma parseCSV_counts_witness :
  length (headers (parseCSV (s "a,b,c" ++ "010" :: s "1,2" ++ "010" :: []))) = 3
  ∧ length (rows (parseCSV (s "a,b,c" ++ "010" :: s "1,2" ++ "010" :: []))) = 1.
Proof.
  destruct (proj1 (proj2 (proj2 (parseCSV_counts
      (s "a,b,c" ++ "010" :: s "1,2" ++ "010" :: []))))
    (s "a,b,c") [s "1,2"]) as [_ [Hh Hr]].
  - vm_compute. reflexivity.
  - split; [exact Hh|exact Hr].
Defined.

Lemma splitLine_scan_witness :
  scan_char {| result := [s "a"]; cur := s " b "; inQuotes := false |} ","
  = {| result := [s "a"; s "b"]; cur := []; inQuotes := false |}
  ∧ scan_char {| result := []; cur := s "b"; inQuotes := true |} ","
  = {| result := []; cur := s "b,"; inQuotes := true |}.
Proof.
  split.
  - apply (proj1 (proj2 (splitLine_scan
        {| result := [s "a"]; cur := s " b "; inQuotes := false |} ","))).
    reflexivity.
  - apply (proj1 (proj2 (proj2 (splitLine_scan
        {| result := []; cur := s "b"; inQuotes := true |} ",")))).
    + discriminate.
    + right. reflexivity.
Defined.

Lemma findCol_first_match_witness :
  findCol [s "Date"; s " build "; s "Build"] [s "Build"; s "Version"]
  = Some (s " build ").
Proof.
  apply (proj1 (findCol_first_match
           [s "Date"; s " build "; s "Build"] [s "Build"; s "Version"])).
  exists [s "Date"], [s "Build"]. split; [reflexivity|]. split.
  - exists (s "Build"). split; [left|reflexivity].
  - intros h' Hh' [a [Ha Hm]].
    apply list_elem_of_singleton in Hh' as ->.
    apply elem_of_cons in Ha as [-> | Ha]; [discriminate|].
    apply list_elem_of_singleton in Ha as ->. discriminate.
Defined.



(** C8: a missing position that gets no empty string.  The line 1,2
    under the headers a, a, __proto__ has no third field; the row
    holds 2 under a, and nothing under [__proto__]. *)
Lemma missing_position_under_proto :
  headers (parseCSV (s "a,a,__proto__" ++ "010" :: s "1,2"))
  = [s "a"; s "a"; s "__proto__"]
  ∧ splitLine (s "1,2") = [s "1"; s "2"]
  ∧ rows (parseCSV (s "a,a,__proto__" ++ "010" :: s "1,2"))
    = [ {[ s "a" := VNum (num_of_Z 2) ]} ]
  ∧ ({[ s "a" := VNum (num_of_Z 2) ]} : object) !! s "__proto__" = None.
Proof. by vm_compute. Qed.

(** C7: the empty header.  The record has a number under the empty
    string, and [getVal] answers 0 all the same. *)
Lemma getVal_empty_header :
  ({[ [] := VNum (num_of_Z 5) ]} : object) !! [] = Some (VNum (num_of_Z 5))
  ∧ isNaN (ToNumber (VNum (num_of_Z 5))) = false
  ∧ getVal {[ [] := VNum (num_of_Z 5) ]} (Some []) = pos_zero
  ∧ num_eqb (getVal {[ [] := VNum (num_of_Z 5) ]} (Some []))
            (ToNumber (VNum (num_of_Z 5))) = false.
Proof. by vm_compute. Qed.

Lemma getVal_total_witness :
  getVal {[ s "Passed" := VStr (s "10") ]} (Some (s "Passed")) = Number (s "10")
  ∧ getVal {[ s "Passed" := VStr (s "n/a") ]} (Some (s "Passed")) = pos_zero
  ∧ getVal {[ s "Passed" := VStr (s "10") ]} (Some (s "Failed")) = pos_zero.
Proof.
  split; [|split].
  - apply (proj2 (proj2 (proj2 (proj2 (getVal_total
        {[ s "Passed" := VStr (s "10") ]} (Some (s "Passed"))))))
        (s "Passed") (VStr (s "10"))); try done.
  - apply (proj1 (proj2 (proj2 (proj2 (getVal_total
        {[ s "Passed" := VStr (s "n/a") ]} (Some (s "Passed"))))))
        (s "Passed") (VStr (s "n/a"))); done.
  - apply (proj1 (proj2 (proj2 (getVal_total
        {[ s "Passed" := VStr (s "10") ]} (Some (s "Failed")))))
        (s "Failed")); [done|]. by left.
Defined.

Lemma rows_keyed_by_headers_witness :
  dom (make_row [s "a"; s "b"] (s "1,x,3"))
  ⊆ list_to_set (headers (parseCSV (s "a,b" ++ "010" :: s "1,x,3"))).
Proof.
  apply (rows_keyed_by_headers (s "a,b" ++ "010" :: s "1,x,3")
           (make_row [s "a"; s "b"] (s "1,x,3"))).
  vm_compute. left.
Defined.

Lemma v_shadows_ver_witness :
  strip_prefix (s "VER-2.0") = s "ER-2.0".
Proof.
  apply (proj1 (v_shadows_ver no_print (s "VER-2.0") (s "-2.0") eq_refl)).
Defined.

Lemma falsy_never_equal_witness :
  smartCompare no_print VUndefined (VStr (s "iOS")) = false.
Proof.
  apply (proj1 (falsy_never_equal no_print VUndefined (VStr (s "iOS"))
                  (or_introl eq_refl))).
Defined.

(** ** Further properties of the comparator *)

Section ComparatorLaws.

Ltac each_char c :=
  destruct c as [[] [] [] [] [] [] [] []]; vm_compute; try done.

Lemma version_char_lower_inv c d :
  is_digit d || bool_decide (d = ".") = true → lower_char c = d → c = d.
Proof. intros Hd <-. revert Hd. each_char c. Qed.

Lemma version_char_lower_test c :
  is_digit (lower_char c) || bool_decide (lower_char c = ".")
  = is_digit c || bool_decide (c = ".").
Proof. each_char c. Qed.

(** A string whose lower-casing is a version is that version. *)
Lemma lower_version_inv x y :
  isVersion y = true → toLowerCase x = y → x = y.
Proof.
  unfold isVersion. intros [_ Hy]%andb_true_iff. revert y Hy.
  induction x as [|c x IH]; intros [|d y] Hy H; simpl in *; try done.
  injection H as Hc Hx. apply andb_true_iff in Hy as [Hd Hy].
  f_equal; [by apply version_char_lower_inv|by apply IH].
Qed.

Lemma isVersion_lower x : isVersion (toLowerCase x) = isVersion x.
Proof.
  unfold isVersion. f_equal.
  - by destruct x.
  - induction x as [|c x IH]; simpl; [done|].
    by rewrite version_char_lower_test, IH.
Qed.

Lemma toLowerCase_idem x : toLowerCase (toLowerCase x) = toLowerCase x.
Proof.
  unfold toLowerCase. rewrite map_map. apply map_ext. apply lower_char_idem.
Qed.

(** [===] on two numbers holds when they are the same value, or two
    zeros. *)
Lemma num_eqb_true a b :
  num_eqb a b = true →
  a = b ∨ (∃ sa sb, a = S754_zero sa ∧ b = S754_zero sb).
Proof.
  unfold num_eqb, SFeqb.
  destruct a as [sa|sa| |sa ma ea], b as [sb|sb| |sb mb eb]; simpl;
    try done; try (by destruct sa); try (by destruct sb).
  - intros _. right. by eexists _, _.
  - destruct sa, sb; try done; by left.
  - destruct sa, sb; try done;
      destruct (Z.compare_spec ea eb) as [->| |]; try done;
      change (Pos.compare_cont Eq ma mb) with (ma ?= mb)%positive;
      destruct (Pos.compare_spec ma mb) as [->| |]; try done; by left.
Qed.

Lemma num_eqb_trans a b c :
  num_eqb a b = true → num_eqb b c = true → num_eqb a c = true.
Proof.
  intros Hab Hbc.
  destruct (num_eqb_true a b Hab) as [->|[sa [sb [-> ->]]]]; [done|].
  destruct (num_eqb_true _ c Hbc) as [<-|[sb' [sc [_ ->]]]]; done.
Qed.

Lemma same_sequence_trans {A} (eq : A → A → bool) la lb lc :
  (∀ x y z, eq x y = true → eq y z = true → eq x z = true) →
  same_sequence eq la lb = true → same_sequence eq lb lc = true →
  same_sequence eq la lc = true.
Proof.
  intros Heq. unfold same_sequence.
  repeat case_bool_decide; try done; try congruence.
  revert lb lc H H0 H1.
  induction la as [|x la IH]; intros [|y lb] [|z lc] H1 H2 H3; simpl in *;
    try done.
  intros [Hxy Hab]%andb_true_iff [Hyz Hbc]%andb_true_iff.
  apply andb_true_iff. split; [by eapply Heq|].
  apply (IH lb lc); auto.
Qed.

Variable Number_toString : number → jsstring.

Local Abbreviation smartCompare := (App.smartCompare Number_toString).
Local Abbreviation cleaned := (Spec.cleaned Number_toString).

(** What an argument is to the comparator: its trimmed string. *)
Local Abbreviation text a := (trim (String_or_empty Number_toString a)).

(** The five stages decide one thing: both texts are non-empty, and
    the cleaned strings are equal up to case or are versions with the
    same segments. *)
Lemma smartCompare_decides a b :
  smartCompare a b
  = negb (str_eqb (text a) []) && negb (str_eqb (text b) [])
    && (str_eqb (toLowerCase (cleaned a)) (toLowerCase (cleaned b))
        || isVersion (cleaned a) && isVersion (cleaned b)
           && equal_as_numbers (cleaned a) (cleaned b)).
Proof.
  unfold App.smartCompare, Spec.cleaned.
  set (sa := text a). set (sb := text b).
  destruct (str_eqb sa []); [done|]. destruct (str_eqb sb []); [done|]. simpl.
  destruct (str_eqb sa sb) eqn:E1.
  { apply str_eqb_eq in E1. by rewrite E1, str_eqb_refl. }
  destruct (str_eqb (toLowerCase sa) (toLowerCase sb)) eqn:E2.
  { apply str_eqb_eq in E2. by rewrite <- !clean_lower, E2, str_eqb_refl. }
  destruct (str_eqb (clean sa) (clean sb)) eqn:E3.
  { apply str_eqb_eq in E3. by rewrite E3, str_eqb_refl. }
  destruct (str_eqb (toLowerCase (clean sa)) (toLowerCase (clean sb))); [done|].
  simpl. rewrite compare_versions_spec.
  by destruct (isVersion (clean sa) && isVersion (clean sb)).
Qed.

End ComparatorLaws.

Section ComparatorExtras.

Ltac each_char c :=
  destruct c as [[] [] [] [] [] [] [] []]; vm_compute; try done.

Lemma version_char_not_ws c :
  is_digit c || bool_decide (c = ".") = true → is_ws c = false.
Proof. each_char c. Qed.

Lemma version_char_no_word c :
  is_digit c || bool_decide (c = ".") = true →
  lower_char c ≠ "r" ∧ lower_char c ≠ "b" ∧ lower_char c ≠ "v".
Proof. each_char c. Qed.

Lemma drop_while_version x :
  forallb (fun c => is_digit c || bool_decide (c = ".")) x = true →
  drop_while is_ws x = x.
Proof.
  destruct x as [|c x]; simpl; [done|].
  intros [Hc _]%andb_true_iff. by rewrite (version_char_not_ws c Hc).
Qed.

(** A version is not changed by trimming and cleaning. *)
Lemma clean_version x : isVersion x = true → clean (trim x) = x.
Proof.
  unfold isVersion. intros [_ H]%andb_true_iff.
  assert (Ht : trim x = x).
  { unfold trim, trimStart, trimEnd. rewrite (drop_while_version x H).
    rewrite drop_while_version by by rewrite forallb_rev.
    apply rev_involutive. }
  rewrite Ht. unfold clean. replace (strip_prefix x) with x; [done|].
  unfold strip_prefix.
  change prefix_words with [s "rc"; s "build"; s "v"; s "ver"; s "version"].
  destruct x as [|c x]; [done|].
  simpl in H. apply andb_true_iff in H as [Hc _].
  destruct (version_char_no_word c Hc) as [Hr [Hb Hv]].
  simpl. by rewrite !bool_decide_eq_false_2.
Qed.

Lemma split_on_app sep x y :
  split_on sep (x ++ sep :: y) = split_on sep x ++ split_on sep y.
Proof.
  induction x as [|c x IH]; simpl.
  - by rewrite bool_decide_eq_true_2.
  - case_bool_decide; [by rewrite IH|]. rewrite IH.
    destruct (split_on_cons sep x) as [seg [segs ->]]. done.
Qed.

Lemma strip_trailing_snoc {A} (zero : A → bool) l a :
  zero a = true → strip_trailing zero (l ++ [a]) = strip_trailing zero l.
Proof.
  intros Ha. induction l as [|b l IH]; simpl; [by rewrite Ha|]. by rewrite IH.
Qed.

Lemma String_or_empty_str f x : String_or_empty f (VStr x) = x.
Proof.
  unfold String_or_empty. simpl. unfold str_eqb. by case_bool_decide.
Qed.

Lemma toLowerCase_nil x : str_eqb (toLowerCase x) [] = str_eqb x [].
Proof. by destruct x. Qed.

Variable Number_toString : number → jsstring.

Local Abbreviation smartCompare := (App.smartCompare Number_toString).
Local Abbreviation cleaned := (Spec.cleaned Number_toString).
Local Abbreviation text a := (trim (String_or_empty Number_toString a)).

(** X1.  On strings of code units up to U+00FF, the stages of
    [smartCompare] come to one decision: it answers true exactly when
    both arguments are non-empty once made strings and trimmed, and their cleaned strings are equal up to case or are
    both versions with the same stripped segments.  The exact and the
    case-insensitive stage on the uncleaned strings add nothing. *)
Theorem smartCompare_one_decision (a b : value) :
  smartCompare a b = true ↔
  text a ≠ [] ∧ text b ≠ [] ∧
  (toLowerCase (cleaned a) = toLowerCase (cleaned b)
   ∨ (isVersion (cleaned a) = true ∧ isVersion (cleaned b) = true
      ∧ equal_as_numbers (cleaned a) (cleaned b) = true)).
Proof.
  rewrite smartCompare_decides.
  rewrite !andb_true_iff, orb_true_iff, !andb_true_iff, !negb_true_iff.
  unfold str_eqb. rewrite !bool_decide_eq_false, bool_decide_eq_true.
  tauto.
Qed.

Lemma smartCompare_trans a b c :
  smartCompare a b = true → smartCompare b c = true → smartCompare a c = true.
Proof.
  rewrite !smartCompare_decides.
  rewrite !andb_true_iff, !orb_true_iff, !andb_true_iff.
  intros [[Ha Hb] Hab] [[_ Hc] Hbc]. split; [done|].
  destruct Hab as [Hab|[[Va Vb] Eab]], Hbc as [Hbc|[[Vb' Vc] Ebc]].
  - left. apply str_eqb_eq in Hab, Hbc. apply str_eqb_eq. congruence.
  - apply str_eqb_eq in Hab. rewrite (version_lower _ Vb') in Hab.
    apply (lower_version_inv _ _ Vb') in Hab. rewrite Hab.
    right. by rewrite Vb', Vc.
  - apply str_eqb_eq in Hbc. rewrite (version_lower _ Vb) in Hbc.
    symmetry in Hbc. apply (lower_version_inv _ _ Vb) in Hbc. rewrite Hbc.
    right. by rewrite Va, Vb.
  - right. split; [done|].
    eapply same_sequence_trans; [apply num_eqb_trans|exact Eab|exact Ebc].
Qed.

(** X2.  On strings of code units up to U+00FF that are not blank,
    [smartCompare] is reflexive and transitive (it is symmetric by C2): it is an equivalence, and a
    blank argument equals nothing, itself included. *)
Theorem smartCompare_equivalence (a b c : value) :
  (smartCompare a a = true ↔ text a ≠ [])
  ∧ (smartCompare a b = true → smartCompare b c = true →
     smartCompare a c = true).
Proof.
  split.
  - rewrite smartCompare_decides, str_eqb_refl. simpl.
    rewrite andb_true_r, andb_diag, negb_true_iff.
    unfold str_eqb. by rewrite bool_decide_eq_false.
  - apply smartCompare_trans.
Qed.

(** X3.  On strings of code units up to U+00FF, [smartCompare] does
    not look at the case of the letters of its arguments. *)
Theorem smartCompare_ignores_case (a b : jsstring) :
  smartCompare (VStr (toLowerCase a)) (VStr b) = smartCompare (VStr a) (VStr b)
  ∧ smartCompare (VStr a) (VStr (toLowerCase b)) = smartCompare (VStr a) (VStr b).
Proof.
  assert (H : ∀ x y, smartCompare (VStr (toLowerCase x)) (VStr y)
                   = smartCompare (VStr x) (VStr y)).
  { intros x y. rewrite !smartCompare_decides. unfold Spec.cleaned.
    rewrite !String_or_empty_str, trim_lower, clean_lower.
    rewrite toLowerCase_nil, toLowerCase_idem, isVersion_lower.
    destruct (isVersion (clean (trim x))) eqn:V; [|done].
    by rewrite (version_lower _ V). }
  split; [apply H|].
  by rewrite smartCompare_comm, H, smartCompare_comm.
Qed.

(** X4.  Padding with a zero segment never changes the answer: an
    argument whose cleaned string is a version equals that version
    followed by ".0". *)
Theorem smartCompare_zero_padding (a : value) :
  isVersion (cleaned a) = true →
  smartCompare a (VStr (cleaned a ++ s ".0")) = true.
Proof.
  intros Va. set (v := cleaned a) in *.
  assert (Vp : isVersion (v ++ s ".0") = true).
  { unfold isVersion in *. apply andb_true_iff in Va as [Hn Hv].
    apply andb_true_iff. split; [by destruct v|].
    rewrite forallb_app, Hv. done. }
  assert (Hc : cleaned (VStr (v ++ s ".0")) = v ++ s ".0").
  { unfold Spec.cleaned. rewrite String_or_empty_str.
    by apply clean_version. }
  rewrite smartCompare_versions by by rewrite ?Hc.
  rewrite Hc. fold v. unfold equal_as_numbers, number_segments.
  change (v ++ s ".0") with (v ++ "." :: s "0").
  rewrite split_on_app, map_app.
  change (map Number (split_on "." (s "0"))) with [Number (s "0")].
  rewrite strip_trailing_snoc by by vm_compute.
  apply (equal_as_numbers_refl v Va).
Qed.

End ComparatorExtras.

(** ** Further properties of column resolution and extraction *)

Section ResolverExtras.

Lemma alias_matches_lower_set aliases aliases' h :
  (∀ x, x ∈ map toLowerCase aliases ↔ x ∈ map toLowerCase aliases') →
  alias_matches aliases h = alias_matches aliases' h.
Proof.
  intros Hset.
  assert (Hdir : ∀ l l', (∀ x, x ∈ map toLowerCase l → x ∈ map toLowerCase l') →
    alias_matches l h = true → alias_matches l' h = true).
  { intros l l' Hsub. unfold alias_matches. rewrite !existsb_exists.
    intros [a [Ha Hm]]. apply str_eqb_eq in Hm.
    assert (Hin : toLowerCase a ∈ map toLowerCase l').
    { apply Hsub, list_elem_of_In, in_map, Ha. }
    apply list_elem_of_In, in_map_iff in Hin as [a' [Ha' Hin]].
    exists a'. split; [done|]. apply str_eqb_eq. congruence. }
  destruct (alias_matches aliases h) eqn:E1, (alias_matches aliases' h) eqn:E2;
    try done.
  - apply (Hdir aliases aliases') in E1; [congruence|]. intros x. apply Hset.
  - apply (Hdir aliases' aliases) in E2; [congruence|]. intros x. apply Hset.
Qed.

Lemma find_map {A} (p : A → bool) (f : A → A) l :
  (∀ x, p (f x) = p x) → List.find p (map f l) = f <$> List.find p l.
Proof.
  intros Hp. induction l as [|a l IH]; simpl; [done|].
  rewrite Hp. by destruct (p a).
Qed.

(** X5.  [findCol] depends on the aliases only through the set of
    their lower-cased spellings: their order, their repetitions and
    the case of their letters do not change the column found. *)
Theorem findCol_alias_set (headers aliases aliases' : list jsstring) :
  (∀ x, x ∈ map toLowerCase aliases ↔ x ∈ map toLowerCase aliases') →
  findCol headers aliases = findCol headers aliases'.
Proof.
  intros Hset. rewrite !findCol_find.
  induction headers as [|h headers IH]; simpl; [done|].
  by rewrite (alias_matches_lower_set aliases aliases' h Hset), IH.
Qed.

(** X6.  The column found does not depend on the case of the headers
    or on the white space around them: on the lower-cased headers, and
    on the trimmed headers, [findCol] finds the same column, in its
    new spelling. *)
Theorem findCol_normalised_headers (headers aliases : list jsstring) :
  findCol (map toLowerCase headers) aliases
    = toLowerCase <$> findCol headers aliases
  ∧ findCol (map trim headers) aliases = trim <$> findCol headers aliases.
Proof.
  rewrite !findCol_find. split; apply find_map; intros h; unfold alias_matches.
  - by rewrite toLowerCase_idem.
  - by rewrite !trim_lower, trim_idem.
Qed.

(** X7.  What [getVal] and [getValByAliases] return is never NaN and
    never the negative zero, whatever the record holds. *)
Theorem getVal_never_NaN (row : object) (header : option jsstring)
    (headers aliases : list jsstring) :
  isNaN (getVal row header) = false
  ∧ getVal row header ≠ S754_zero true
  ∧ isNaN (getValByAliases row headers aliases) = false
  ∧ getValByAliases row headers aliases ≠ S754_zero true.
Proof.
  assert (H : ∀ hd, isNaN (getVal row hd) = false ∧ getVal row hd ≠ S754_zero true).
  { intros hd. unfold getVal. destruct hd as [h|]; [|done].
    destruct (str_eqb h [] || is_undefined (get row h)); [done|].
    unfold or_zero. by destruct (read_to_number (get row h)) as [[]|[]| |[] m e]. }
  destruct (H header) as [H1 H2].
  destruct (H (findCol headers aliases)) as [H3 H4]. done.
Qed.

(** X8.  Reading back a parsed cell: for a row the parser made of a
    line, and a header that is not empty nor [__proto__], [getVal] is
    the number of the text of the field under the last header of that
    name, or 0 when the text is no number, whether the parser stored
    the cell as a number or as a string. *)
Theorem getVal_of_parsed_cell (hs : list jsstring) (line h : jsstring) (i : nat) :
  hs !! i = Some h →
  (∀ j, i < j → hs !! j ≠ Some h) →
  h ≠ [] → h ≠ s "__proto__" →
  getVal (make_row hs line) (Some h)
  = or_zero (Number (default [] (splitLine line !! i))).
Proof.
  intros Hi Hlast Hne Hp.
  unfold getVal, get, make_row.
  rewrite (fill_row_last _ hs 0 ∅ i h Hi Hlast Hp). simpl.
  rewrite cell_value_field.
  set (f := default [] (splitLine line !! i)).
  unfold str_eqb. rewrite (bool_decide_eq_false_2 _ Hne). simpl.
  unfold stored. by destruct (negb (str_eqb f []) && is_numeric f).
Qed.

End ResolverExtras.

Lemma findCol_alias_set_witness :
  findCol [s "Date"; s "build "] [s "Build"; s "Version"]
  = findCol [s "Date"; s "build "] [s "VERSION"; s "build"; s "BUILD"].
Proof.
  apply findCol_alias_set. intros x. simpl.
  rewrite !elem_of_cons, !elem_of_nil.
  change (toLowerCase (s "Build")) with (s "build").
  change (toLowerCase (s "BUILD")) with (s "build").
  change (toLowerCase (s "Version")) with (s "version").
  change (toLowerCase (s "VERSION")) with (s "version").
  change (toLowerCase (s "build")) with (s "build").
  tauto.
Defined.

Lemma getVal_of_parsed_cell_witness :
  getVal (make_row [s "Build"; s "Passed"] (s "RC 1, 10 ")) (Some (s "Passed"))
  = or_zero (Number (s "10")).
Proof.
  apply (getVal_of_parsed_cell [s "Build"; s "Passed"] (s "RC 1, 10 ")
           (s "Passed") 1).
  - reflexivity.
  - intros [|[|j]] Hj; [lia|lia|]. simpl. discriminate.
  - discriminate.
  - discriminate.
Defined.

(** ** Further properties of the parser *)

Section ParserExtras.

Lemma scan_char_text st c :
  c ≠ "034" → c ≠ "," ∨ inQuotes st = true →
  scan_char st c
  = {| result := result st; cur := cur st ++ [c]; inQuotes := inQuotes st |}.
Proof.
  intros Hq Hc. unfold scan_char. rewrite bool_decide_eq_false_2 by done.
  destruct Hc as [Hc|Hc].
  - by rewrite (bool_decide_eq_false_2 _ Hc).
  - rewrite Hc. by rewrite andb_false_r.
Qed.

(** Inside quotes, a text without quotes goes to the field as it is. *)
Lemma scan_quoted_text f res cur0 :
  "034" ∉ f →
  fold_left scan_char f {| result := res; cur := cur0; inQuotes := true |}
  = {| result := res; cur := cur0 ++ f; inQuotes := true |}.
Proof.
  revert cur0. induction f as [|c f IH]; intros cur0 Hq; simpl.
  - by rewrite app_nil_r.
  - rewrite scan_char_text; simpl; [|by intros ->; apply Hq; left|by right].
    rewrite IH; [by rewrite <- app_assoc|]. intros ?. apply Hq. by right.
Qed.

Lemma scan_quote_field f res :
  "034" ∉ f →
  fold_left scan_char (quote_field f)
    {| result := res; cur := []; inQuotes := false |}
  = {| result := res; cur := f; inQuotes := false |}.
Proof.
  intros Hq. unfold quote_field. simpl. rewrite fold_left_app.
  change (scan_char {| result := res; cur := []; inQuotes := false |} "034")
    with {| result := res; cur := []; inQuotes := true |}.
  by rewrite (scan_quoted_text f res [] Hq).
Qed.

Lemma scan_csv_line fields f res :
  Forall (fun f => ("034" ∉ f) ∧ trim f = f) (f :: fields) →
  let st := fold_left scan_char (csv_line (f :: fields))
              {| result := res; cur := []; inQuotes := false |} in
  result st ++ [trim (cur st)] = res ++ f :: fields.
Proof.
  revert f res. induction fields as [|g fields IH]; intros f res H; cbv zeta.
  - inversion H as [|? ? [Hq Ht] _]; subst.
    change (csv_line [f]) with (quote_field f).
    rewrite (scan_quote_field f res Hq). simpl. by rewrite Ht.
  - inversion H as [|? ? [Hq Ht] Hrest]; subst.
    change (csv_line (f :: g :: fields))
      with (quote_field f ++ [","%char] ++ csv_line (g :: fields)).
    rewrite fold_left_app, (scan_quote_field f res Hq). simpl.
    change (scan_char {| result := res; cur := f; inQuotes := false |} ",")
      with {| result := res ++ [trim f]; cur := []; inQuotes := false |}.
    rewrite Ht. specialize (IH g (res ++ [f]) Hrest). cbv zeta in IH.
    rewrite IH. by rewrite <- app_assoc.
Qed.

Lemma split_lines_other c y :
  c ≠ "010" → (c = "013" → ∀ y', y ≠ "010" :: y') →
  split_lines (c :: y)
  = match split_lines y with
    | seg :: segs => (c :: seg) :: segs
    | [] => [[c]]
    end.
Proof.
  intros Hlf Hcr. destruct (decide (c = "013")) as [->|Hc].
  - destruct y as [|d y']; [done|].
    assert (Hd : d ≠ "010") by (intros ->; by apply (Hcr eq_refl y')).
    by destruct d as [[] [] [] [] [] [] [] []].
  - by destruct c as [[] [] [] [] [] [] [] []].
Qed.

(** A text without line feed is one line. *)
Lemma split_lines_last l : "010" ∉ l → split_lines l = [l].
Proof.
  induction l as [|c l IH]; intros Hlf; [done|].
  rewrite split_lines_other.
  - rewrite IH; [done|]. intros ?. apply Hlf. by right.
  - intros ->. apply Hlf. left.
  - intros _ y' ->. apply Hlf. right. left.
Qed.

(** A line feed after a line that does not end in CR ends that line. *)
Lemma split_lines_line l y :
  "010" ∉ l → last l ≠ Some "013"%char →
  split_lines (l ++ "010" :: y) = l :: split_lines y.
Proof.
  induction l as [|c l IH]; intros Hlf Hcr; [done|].
  simpl app. rewrite split_lines_other.
  - rewrite IH; [done| |].
    + intros ?. apply Hlf. by right.
    + intros Hl. apply Hcr. by rewrite last_cons, Hl.
  - intros ->. apply Hlf. left.
  - intros -> y' Hy. destruct l as [|d l]; simpl in Hy.
    + by apply Hcr.
    + injection Hy as -> _. apply Hlf. right. left.
Qed.

Lemma splitLine_csv_line f fields :
  Forall (fun f => ("034" ∉ f) ∧ trim f = f) (f :: fields) →
  splitLine (csv_line (f :: fields)) = f :: fields.
Proof.
  intros H. unfold splitLine, scan_start.
  apply (scan_csv_line fields f [] H).
Qed.

Lemma csv_line_cons f g fields :
  csv_line (f :: g :: fields)
  = quote_field f ++ ","%char :: csv_line (g :: fields).
Proof. reflexivity. Qed.

Lemma csv_line_no_lf fields :
  Forall plain_field fields → "010" ∉ csv_line fields.
Proof.
  induction 1 as [|f fields [_ [Hlf _]] _ IH]; [apply not_elem_of_nil|].
  destruct fields as [|g fields].
  - change (csv_line [f]) with ("034"%char :: f ++ ["034"%char]).
    rewrite elem_of_cons, elem_of_app, list_elem_of_singleton.
    intros [?|[?|?]]; done.
  - rewrite csv_line_cons. unfold quote_field.
    rewrite elem_of_app, !elem_of_cons, elem_of_app, list_elem_of_singleton.
    intros [[?|[?|?]]|[?|?]]; done.
Qed.

Lemma csv_line_last f fields : last (csv_line (f :: fields)) = Some "034"%char.
Proof.
  revert f. induction fields as [|g fields IH]; intros f.
  - change (csv_line [f]) with (("034"%char :: f) ++ ["034"%char]).
    apply last_snoc.
  - rewrite csv_line_cons, last_app.
    change (","%char :: csv_line (g :: fields))
      with ([","%char] ++ csv_line (g :: fields)).
    by rewrite last_app, IH.
Qed.

Lemma csv_line_not_blank f fields : blank (csv_line (f :: fields)) = false.
Proof. by destruct fields. Qed.

(** The lines of a written table are the written lines. *)
Lemma split_lines_csv_text line table :
  Forall (fun fields => fields ≠ [] ∧ Forall plain_field fields) (line :: table) →
  split_lines (csv_text (line :: table)) = map csv_line (line :: table).
Proof.
  revert line. induction table as [|line' table IH]; intros line H.
  - inversion H as [|? ? [Hne Hp] _]; subst.
    apply split_lines_last. by apply csv_line_no_lf.
  - inversion H as [|? ? [Hne Hp] Hrest]; subst.
    change (csv_text (line :: line' :: table))
      with (csv_line line ++ "010"%char :: csv_text (line' :: table)).
    rewrite split_lines_line.
    + by rewrite (IH line' Hrest).
    + by apply csv_line_no_lf.
    + destruct line as [|f fields]; [done|]. by rewrite csv_line_last.
Qed.

(** X9.  Quoting round trip of a line: fields that hold no quote and
    no white space at their ends, each written between quotes and
    joined by commas, are split back into the same fields, commas
    inside them included. *)
Theorem splitLine_quoted (f : jsstring) (fields : list jsstring) :
  Forall (fun f => ("034" ∉ f) ∧ trim f = f) (f :: fields) →
  splitLine (csv_line (f :: fields)) = f :: fields.
Proof.
  apply splitLine_csv_line.
Qed.

(** X10.  Round trip of a table: a header line and data lines, each a
    non-empty list of fields without quote, line feed or white space
    at the ends, written with every field quoted and LF between the
    lines, parse back to the same headers and to one row per data
    line, filled from the very fields of that line. *)
Theorem parseCSV_csv_text (hs : list jsstring) (lines : list (list jsstring)) :
  Forall (fun fields => fields ≠ [] ∧ Forall plain_field fields) (hs :: lines) →
  parseCSV (csv_text (hs :: lines))
  = {| headers := hs;
       rows := map (fun fields => fill_row fields 0 hs ∅) lines |}.
Proof.
  intros H.
  assert (Hsplit : ∀ fields, fields ≠ [] ∧ Forall plain_field fields →
            splitLine (csv_line fields) = fields).
  { intros [|f fields] [Hne Hp]; [done|]. apply splitLine_csv_line.
    eapply Forall_impl; [exact Hp|]. by intros x [? [_ ?]]. }
  unfold parseCSV. rewrite content_lines_not_blank, (split_lines_csv_text _ _ H).
  rewrite forallb_filter_id.
  2:{ apply forallb_forall. intros l [fields [<- Hin]]%in_map_iff.
      rewrite Forall_forall in H.
      destruct (H fields) as [Hne _]; [by apply list_elem_of_In|].
      destruct fields as [|f fields]; [done|].
      by rewrite csv_line_not_blank. }
  inversion H as [|? ? Hhs Hlines]; subst. simpl map. cbv iota.
  rewrite (Hsplit hs Hhs). f_equal.
  rewrite map_map. apply map_ext_Forall.
  eapply Forall_impl; [exact Hlines|]. intros fields Hf. simpl.
  unfold make_row. by rewrite (Hsplit fields Hf).
Qed.

(** X11.  All rows of a table have the same keys: the headers, without
    [__proto__] (which an assignment cannot create). *)
Theorem rows_same_keys (csvText : jsstring) (row : object) :
  row ∈ rows (parseCSV csvText) →
  dom row = list_to_set (headers (parseCSV csvText)) ∖ {[ s "__proto__" ]}.
Proof.
  unfold parseCSV. destruct (content_lines csvText) as [|first rest]; simpl.
  { by intros ?%elem_of_nil. }
  intros Hrow. apply list_elem_of_In, in_map_iff in Hrow as [line [<- _]].
  apply set_eq. intros h.
  rewrite elem_of_difference, elem_of_list_to_set, elem_of_singleton.
  split.
  - intros Hh. split; [by apply make_row_dom, elem_of_list_to_set in Hh|].
    intros ->. apply elem_of_dom in Hh as [v Hv]. unfold make_row in Hv.
    rewrite fill_row_other in Hv by by right. done.
  - intros [[i Hi]%list_elem_of_lookup Hp]. apply elem_of_dom.
    by apply (make_row_defined _ line i).
Qed.

(** X12.  What a table holds: a cell is never [undefined]; a number
    cell is never NaN; a string cell holds no quote and no white space
    at its ends, and is empty or is no numeric literal. *)
Theorem cells_well_formed (csvText : jsstring) (row : object)
    (h : jsstring) (v : value) :
  row ∈ rows (parseCSV csvText) → row !! h = Some v →
  match v with
  | VUndefined => False
  | VNum n => isNaN n = false
  | VStr x => ("034" ∉ x) ∧ trim x = x ∧ (x = [] ∨ is_numeric x = false)
  end.
Proof.
  unfold parseCSV. destruct (content_lines csvText) as [|first rest]; simpl.
  { by intros ?%elem_of_nil. }
  intros Hrow Hv. apply list_elem_of_In, in_map_iff in Hrow as [line [<- _]].
  destruct (make_row_paired _ _ _ _ Hv) as [i [_ [_ ->]]].
  assert (Hf : ("034" ∉ default [] (splitLine line !! i))
             ∧ trim (default [] (splitLine line !! i))
               = default [] (splitLine line !! i)).
  { destruct (splitLine line !! i) as [f|] eqn:E; simpl.
    - pose proof (splitLine_fields line) as H. rewrite Forall_lookup in H.
      exact (H i f E).
    - split; [apply not_elem_of_nil|done]. }
  set (f := default [] (splitLine line !! i)) in *.
  unfold stored. destruct (str_eqb f []) eqn:Ee; simpl.
  - apply str_eqb_eq in Ee. destruct Hf. repeat split; auto.
  - destruct (is_numeric f) eqn:En.
    + by rewrite isNaN_Number, En.
    + destruct Hf. repeat split; auto.
Qed.

Lemma split_lines_to_crlf x :
  "013" ∉ x → split_lines (to_crlf x) = split_lines x.
Proof.
  induction x as [|c x IH]; intros Hcr; [done|].
  assert (Hx : "013" ∉ x) by (intros ?; apply Hcr; by right).
  simpl to_crlf. case_bool_decide as Hc.
  - subst c. simpl. by rewrite (IH Hx).
  - assert (Hcr' : c ≠ "013") by (intros ->; apply Hcr; left).
    rewrite !split_lines_other; try done. by rewrite (IH Hx).
Qed.

(** X13.  Line endings: a text without CR parses to the same table
    when every LF is written CR LF. *)
Theorem parseCSV_crlf (csvText : jsstring) :
  "013" ∉ csvText → parseCSV (to_crlf csvText) = parseCSV csvText.
Proof.
  intros H. unfold parseCSV, content_lines.
  by rewrite (split_lines_to_crlf csvText H).
Qed.

End ParserExtras.

Lemma splitLine_quoted_witness :
  splitLine (csv_line [s "RC 1.0, hotfix"; s ""; s "iOS"])
  = [s "RC 1.0, hotfix"; s ""; s "iOS"].
Proof.
  apply splitLine_quoted.
  repeat constructor; try reflexivity; vm_compute; intros H;
    repeat (apply elem_of_cons in H as [H|H]; [discriminate|]);
    by apply elem_of_nil in H.
Defined.

(** ** Properties of the views *)

Section ViewFacts.

Lemma filter_sublist {A} (p : A → bool) l : sublist (List.filter p l) l.
Proof.
  induction l as [|a l IH]; simpl; [constructor|].
  destruct (p a); by constructor.
Qed.

Lemma filter_sublist_mono {A} (p : A → bool) l1 l2 :
  sublist l1 l2 → sublist (List.filter p l1) (List.filter p l2).
Proof.
  induction 1 as [|a l1 l2 _ IH|a l1 l2 _ IH]; simpl.
  - constructor.
  - destruct (p a); [by constructor|done].
  - destruct (p a); [by constructor|done].
Qed.

Lemma filter_elem {A} (p : A → bool) l a :
  a ∈ List.filter p l ↔ a ∈ l ∧ p a = true.
Proof. rewrite !list_elem_of_In. apply filter_In. Qed.

Lemma SFleb_not_NaN a b : SFleb a b = true → isNaN a = false ∧ isNaN b = false.
Proof. by destruct a as [[]|[]| |[] ? ?], b as [[]|[]| |[] ? ?]. Qed.

(** In a table without empty header no row has anything under the
    empty name. *)
Lemma rows_no_empty_header csvText r :
  [] ∉ headers (parseCSV csvText) → r ∈ rows (parseCSV csvText) →
  read_truthy (get r []) = false.
Proof.
  unfold parseCSV. destruct (content_lines csvText) as [|first rest]; simpl.
  { by intros _ ?%elem_of_nil. }
  intros Hh Hr. apply list_elem_of_In, in_map_iff in Hr as [line [<- _]].
  unfold get, make_row. rewrite fill_row_other by by left. done.
Qed.

End ViewFacts.

Section ViewExtras.

Variable Number_toString : number → jsstring.
Variable Inherited_toString : jsstring → jsstring.
Variable Date_time : read → number.

Local Abbreviation getStatusStyles := (Dashboard.getStatusStyles Number_toString).
Local Abbreviation getBuildTypeStyles :=
  (Dashboard.getBuildTypeStyles Number_toString).
Local Abbreviation cell_is :=
  (Dashboard.cell_is Number_toString Inherited_toString).
Local Abbreviation in_date_range := (Dashboard.in_date_range Date_time).
Local Abbreviation filteredRows :=
  (Dashboard.filteredRows Number_toString Inherited_toString Date_time).
Local Abbreviation summaryRows :=
  (Dashboard.summaryRows Number_toString Inherited_toString Date_time).
Local Abbreviation trendRows :=
  (Dashboard.trendRows Number_toString Inherited_toString Date_time).
Local Abbreviation smartCompare := (App.smartCompare Number_toString).

(** X14.  The two style helpers do not look at the case of the text;
    a falsy value gets the default style of each; and in
    [getStatusStyles] a failure word wins over everything else the
    text holds, so that "not fixed" and "not implemented" are failures
    although they hold "fixed" and "implemented". *)
Theorem styles_by_keyword (x : jsstring) (v : value) :
  getStatusStyles (VStr (toLowerCase x)) = getStatusStyles (VStr x)
  ∧ getBuildTypeStyles (VStr (toLowerCase x)) = getBuildTypeStyles (VStr x)
  ∧ (truthy v = false →
     getStatusStyles v = style_blue ∧ getBuildTypeStyles v = style_slate)
  ∧ (includes (toLowerCase x) (s "not implemented") = true
     ∨ includes (toLowerCase x) (s "not fixed") = true
     ∨ includes (toLowerCase x) (s "fail") = true
     ∨ includes (toLowerCase x) (s "error") = true →
     getStatusStyles (VStr x) = style_rose).
Proof.
  unfold Dashboard.getStatusStyles, Dashboard.getBuildTypeStyles.
  rewrite !String_or_empty_str, toLowerCase_idem.
  split; [done|]. split; [done|]. split.
  - intros Hv. unfold String_or_empty. by rewrite Hv.
  - intros H. unfold status_style.
    destruct H as [H|[H|[H|H]]]; rewrite H; by rewrite ?orb_true_r.
Qed.

(** X15.  [displayHeaders] keeps the headers of the table in their
    order and invents none; it never shows a serial-number column; on
    the validation tab it never shows the resolved platform and build
    columns; on the other tabs it shows every other header; and with
    no table it shows nothing. *)
Theorem displayHeaders_selection (data : DashboardData) (activeTab h : jsstring) :
  sublist (displayHeaders (Some data) activeTab) (headers data)
  ∧ (h ∈ displayHeaders (Some data) activeTab →
     (trim (toLowerCase h) ∉ sNoAliases)
     ∧ (activeTab = VALIDATION_id →
        Some h ≠ findCol (headers data) PLATFORM_COL_ALIASES
        ∧ Some h ≠ findCol (headers data) BUILD_COL_ALIASES))
  ∧ (activeTab ≠ VALIDATION_id → h ∈ headers data →
     trim (toLowerCase h) ∉ sNoAliases →
     h ∈ displayHeaders (Some data) activeTab)
  ∧ displayHeaders None activeTab = [].
Proof.
  unfold displayHeaders. split; [|split; [|split; [|done]]].
  - destruct (str_eqb activeTab VALIDATION_id).
    + etrans; apply filter_sublist.
    + apply filter_sublist.
  - destruct (str_eqb activeTab VALIDATION_id) eqn:E.
    + rewrite !filter_elem. intros [[_ Hs] Hc].
      apply negb_true_iff, bool_decide_eq_false in Hs.
      apply andb_true_iff in Hc as [Hp Hb].
      apply negb_true_iff, bool_decide_eq_false in Hp, Hb. done.
    + rewrite filter_elem. intros [_ Hs].
      apply negb_true_iff, bool_decide_eq_false in Hs. split; [done|].
      intros ->. by rewrite str_eqb_refl in E.
  - intros Htab Hin Hs. unfold str_eqb.
    rewrite (bool_decide_eq_false_2 _ Htab). apply filter_elem.
    split; [done|]. by apply negb_true_iff, bool_decide_eq_false.
Qed.

(** X16.  [filteredRows] keeps rows of the table in their order and
    invents none; with no table it is empty; and with both selectors
    on All and no date bound it is the whole table. *)
Theorem filteredRows_sublist (data : DashboardData)
    (activeTab selectedPlatform selectedBuild startDate endDate : jsstring)
    (builds : list jsstring) :
  sublist (filteredRows (Some data) activeTab selectedPlatform selectedBuild
             startDate endDate builds) (rows data)
  ∧ filteredRows None activeTab selectedPlatform selectedBuild
      startDate endDate builds = []
  ∧ filteredRows (Some data) activeTab (s "All") (s "All") [] [] builds
    = rows data.
Proof.
  split; [|done]. unfold Dashboard.filteredRows.
  set (rows1 := if negb (str_eqb selectedBuild (s "All")) && _ then _ else _).
  assert (H1 : sublist rows1 (rows data)).
  { subst rows1. repeat case_match; try done; apply filter_sublist. }
  repeat case_match; try done. etrans; [apply filter_sublist|done].
Qed.


(** X18.  Two names of the same build select the same rows: on
    strings of code units up to U+00FF, when the comparator equates two
    selected builds, [filteredRows] is the same
    for both. *)
Theorem filteredRows_same_build (data : option DashboardData)
    (tab platform b1 b2 startDate endDate : jsstring) (builds : list jsstring) :
  b1 ≠ s "All" → b2 ≠ s "All" →
  smartCompare (VStr b1) (VStr b2) = true →
  filteredRows data tab platform b1 startDate endDate builds
  = filteredRows data tab platform b2 startDate endDate builds.
Proof.
  intros H1 H2 Heq. destruct data as [data|]; [|done].
  unfold Dashboard.filteredRows.
  assert (Hall1 : str_eqb b1 (s "All") = false) by by apply bool_decide_eq_false.
  assert (Hall2 : str_eqb b2 (s "All") = false) by by apply bool_decide_eq_false.
  rewrite !Hall1, !Hall2.
  destruct (col_truthy (findCol (headers data) BUILD_COL_ALIASES)); [|done].
  simpl.
  assert (Hf : List.filter
                 (cell_is (findCol (headers data) BUILD_COL_ALIASES) b1) (rows data)
             = List.filter
                 (cell_is (findCol (headers data) BUILD_COL_ALIASES) b2) (rows data)).
  { apply List.filter_ext. intros r. unfold Dashboard.cell_is.
    set (x := cell_arg _ _ _).
    destruct (smartCompare x (VStr b1)) eqn:E1, (smartCompare x (VStr b2)) eqn:E2;
      try done.
    - rewrite <- E2. symmetry.
      by apply (smartCompare_trans Number_toString x (VStr b1) (VStr b2)).
    - rewrite <- E1.
      apply (smartCompare_trans Number_toString x (VStr b2) (VStr b1)); [done|].
      by rewrite smartCompare_comm. }
  by rewrite Hf.
Qed.

(** X19.  The summary figures count only rows the summary table
    shows.  The rows [summaryStats] and [pieData] reduce over are
    among the rows of [filteredRows] on the summary tab, under the same
    filter state and in the same order; the rows [trendData] maps are
    the first ten of those, at most, in reverse order. *)
Theorem summaryRows_are_shown (data : DashboardData)
    (platform selectedBuild startDate endDate : jsstring)
    (builds : list jsstring) :
  sublist (summaryRows data platform selectedBuild startDate endDate)
          (filteredRows (Some data) SUMMARY_id platform selectedBuild
             startDate endDate builds)
  ∧ sublist (rev (trendRows data platform selectedBuild startDate endDate))
            (filteredRows (Some data) SUMMARY_id platform selectedBuild
               startDate endDate builds)
  ∧ rev (trendRows data platform selectedBuild startDate endDate)
    = take 10 (summaryRows data platform selectedBuild startDate endDate)
  ∧ length (trendRows data platform selectedBuild startDate endDate) ≤ 10.
Proof.
  assert (H : sublist (summaryRows data platform selectedBuild startDate endDate)
          (filteredRows (Some data) SUMMARY_id platform selectedBuild
             startDate endDate builds)).
  { unfold Dashboard.summaryRows, Dashboard.filteredRows.
    rewrite (str_eqb_refl SUMMARY_id). change (negb true) with false.
    rewrite andb_false_r.
    destruct (str_eqb selectedBuild (s "All")), (str_eqb platform (s "All")),
      (col_truthy (findCol (headers data) BUILD_COL_ALIASES)),
      (col_truthy (findCol (headers data) PLATFORM_COL_ALIASES)),
      (col_truthy (findCol (headers data) DATE_COL_ALIASES)),
      (str_eqb startDate []), (str_eqb endDate []); simpl;
      repeat first [ done | apply filter_sublist_mono
                   | (etrans; [apply filter_sublist|]) ]. }
  unfold Dashboard.trendRows. rewrite rev_involutive.
  split; [done|]. split; [|split; [done|]].
  - etrans; [apply sublist_take|done].
  - rewrite length_rev, length_take. lia.
Qed.

(** X20.  With a date bound set and a date column in the table,
    [filteredRows] shows no row whose date cell is empty and no row
    whose date does not parse; the rows shown are inside the bounds
    that are set. *)
Theorem filteredRows_dated (data : DashboardData)
    (tab platform selectedBuild startDate endDate : jsstring)
    (builds : list jsstring) (r : object) :
  startDate ≠ [] ∨ endDate ≠ [] →
  col_truthy (findCol (headers data) DATE_COL_ALIASES) = true →
  r ∈ filteredRows (Some data) tab platform selectedBuild startDate endDate builds →
  let cell := get r (col_key (findCol (headers data) DATE_COL_ALIASES)) in
  read_truthy cell = true
  ∧ isNaN (Date_time cell) = false
  ∧ (startDate ≠ [] →
     SFleb (Date_time (Own (VStr startDate))) (Date_time cell) = true)
  ∧ (endDate ≠ [] →
     SFleb (Date_time cell) (Date_time (Own (VStr endDate))) = true).
Proof.
  intros Hset Hcol. unfold Dashboard.filteredRows. rewrite Hcol.
  assert (Hd : negb (str_eqb startDate []) || negb (str_eqb endDate []) = true).
  { unfold str_eqb. destruct Hset as [H|H];
      rewrite (bool_decide_eq_false_2 _ H); simpl; by rewrite ?orb_true_r. }
  rewrite Hd. rewrite filter_elem. intros [_ Hr]. cbv zeta.
  unfold Dashboard.in_date_range in Hr.
  set (cell := get r _) in *.
  destruct (read_truthy cell); [|done]. simpl in Hr.
  apply andb_true_iff in Hr as [Hs He].
  assert (Hs' : startDate ≠ [] →
    SFleb (Date_time (Own (VStr startDate))) (Date_time cell) = true).
  { intros Hne. unfold str_eqb in Hs.
    by rewrite (bool_decide_eq_false_2 _ Hne) in Hs. }
  assert (He' : endDate ≠ [] →
    SFleb (Date_time cell) (Date_time (Own (VStr endDate))) = true).
  { intros Hne. unfold str_eqb in He.
    by rewrite (bool_decide_eq_false_2 _ Hne) in He. }
  repeat split; try done.
  destruct Hset as [H|H].
  - by destruct (SFleb_not_NaN _ _ (Hs' H)).
  - by destruct (SFleb_not_NaN _ _ (He' H)).
Qed.

(** X21.  A table without date column: with a date bound set,
    [filteredRows] ignores the bound, while the summary figures read
    the column of the empty name: they keep exactly the rows of the
    platform and build filters whose cell under the empty name passes
    the date test, so no row that has nothing truthy there, and no row
    at all for a table without empty header. *)
Theorem dates_without_date_column (data : DashboardData)
    (tab platform selectedBuild startDate endDate : jsstring)
    (builds : list jsstring) :
  startDate ≠ [] ∨ endDate ≠ [] →
  col_truthy (findCol (headers data) DATE_COL_ALIASES) = false →
  filteredRows (Some data) tab platform selectedBuild startDate endDate builds
  = filteredRows (Some data) tab platform selectedBuild [] [] builds
  ∧ summaryRows data platform selectedBuild startDate endDate
    = List.filter (fun r => in_date_range startDate endDate (get r []))
                  (summaryRows data platform selectedBuild [] [])
  ∧ (∀ r, r ∈ summaryRows data platform selectedBuild startDate endDate →
          read_truthy (get r []) = true)
  ∧ ((∀ r, r ∈ rows data → read_truthy (get r []) = false) →
     summaryRows data platform selectedBuild startDate endDate = []).
Proof.
  intros Hset Hcol.
  assert (Hd : negb (str_eqb startDate []) || negb (str_eqb endDate []) = true).
  { unfold str_eqb. destruct Hset as [H|H];
      rewrite (bool_decide_eq_false_2 _ H); simpl; by rewrite ?orb_true_r. }
  assert (Hsum : summaryRows data platform selectedBuild startDate endDate
    = List.filter (fun r => in_date_range startDate endDate (get r []))
                  (summaryRows data platform selectedBuild [] [])).
  { unfold Dashboard.summaryRows. rewrite Hcol, Hd.
    by rewrite (str_eqb_refl []). }
  assert (Hkept : ∀ r,
    r ∈ summaryRows data platform selectedBuild startDate endDate →
    read_truthy (get r []) = true).
  { intros r. rewrite Hsum, filter_elem. intros [_ Hr].
    unfold Dashboard.in_date_range in Hr.
    by destruct (read_truthy (get r [])). }
  split; [|split; [done|split; [done|]]].
  - unfold Dashboard.filteredRows. rewrite Hcol, Hd.
    by rewrite (str_eqb_refl []).
  - intros Hrows.
    assert (Hin : ∀ r,
      r ∈ summaryRows data platform selectedBuild startDate endDate →
      r ∈ rows data).
    { intros r. rewrite Hsum, filter_elem. intros [Hr _]. revert Hr.
      unfold Dashboard.summaryRows. rewrite (str_eqb_refl []). simpl.
      repeat case_match; rewrite ?filter_elem; tauto. }
    destruct (summaryRows data platform selectedBuild startDate endDate)
      as [|r l] eqn:E; [done|].
    assert (Hr : r ∈ r :: l) by left.
    pose proof (Hkept r Hr) as Ht. rewrite (Hrows r (Hin r Hr)) in Ht. done.
Qed.

End ViewExtras.

(** ** The further properties at concrete inputs *)

Lemma smartCompare_equivalence_witness :
  smartCompare no_print (VStr (s "RC 1.0")) (VStr (s "v1")) = true.
Proof.
  apply (proj2 (smartCompare_equivalence no_print
                  (VStr (s "RC 1.0")) (VStr (s "Build 1.0.0")) (VStr (s "v1")))).
  - vm_compute. reflexivity.
  - vm_compute. reflexivity.
Defined.

Lemma smartCompare_zero_padding_witness :
  smartCompare no_print (VStr (s "RC 1.2")) (VStr (s "1.2.0")) = true.
Proof.
  exact (smartCompare_zero_padding no_print (VStr (s "RC 1.2")) eq_refl).
Defined.

Lemma parseCSV_csv_text_witness :
  parseCSV (csv_text [[s "Build"; s "Passed"]; [s "RC 1, a"; s "10"]])
  = {| headers := [s "Build"; s "Passed"];
       rows := [fill_row [s "RC 1, a"; s "10"] 0 [s "Build"; s "Passed"] ∅] |}.
Proof.
  apply (parseCSV_csv_text [s "Build"; s "Passed"] [[s "RC 1, a"; s "10"]]).
  repeat constructor; try discriminate; try reflexivity;
    vm_compute; intros H;
    repeat (apply elem_of_cons in H as [H|H]; [discriminate|]);
    by apply elem_of_nil in H.
Defined.

Lemma rows_same_keys_witness :
  dom (make_row [s "a"; s "b"] (s "1"))
  = list_to_set (headers (parseCSV (s "a,b" ++ "010" :: s "1")))
    ∖ {[ s "__proto__" ]}.
Proof.
  apply (rows_same_keys (s "a,b" ++ "010" :: s "1")
           (make_row [s "a"; s "b"] (s "1"))).
  vm_compute. left.
Defined.

Lemma cells_well_formed_witness : isNaN (Number (s "10")) = false.
Proof.
  apply (cells_well_formed (s "a,b" ++ "010" :: s "x,10")
           (make_row [s "a"; s "b"] (s "x,10")) (s "b") (VNum (Number (s "10")))).
  - vm_compute. left.
  - vm_compute. reflexivity.
Defined.

Lemma parseCSV_crlf_witness :
  parseCSV (s "a,b" ++ "013" :: "010" :: s "1,2")
  = parseCSV (s "a,b" ++ "010" :: s "1,2").
Proof.
  apply (parseCSV_crlf (s "a,b" ++ "010" :: s "1,2")).
  vm_compute. intros H.
  repeat (apply elem_of_cons in H as [H|H]; [discriminate|]).
  by apply elem_of_nil in H.
Defined.

Lemma styles_by_keyword_witness :
  getStatusStyles no_print (VStr (s "Not Fixed")) = style_rose.
Proof.
  apply (proj2 (proj2 (proj2 (styles_by_keyword no_print
           (s "Not Fixed") VUndefined)))).
  right. left. reflexivity.
Defined.

Lemma displayHeaders_selection_witness :
  s "Status" ∈ displayHeaders (Some sample_undated) (s "summary").
Proof.
  apply (proj1 (proj2 (proj2 (displayHeaders_selection sample_undated
           (s "summary") (s "Status"))))).
  - discriminate.
  - vm_compute. right. right. left.
  - vm_compute. intros H.
    repeat (apply elem_of_cons in H as [H|H]; [discriminate|]).
    by apply elem_of_nil in H.
Defined.


Lemma filteredRows_same_build_witness :
  filteredRows no_print no_text day_number (Some sample_table)
    (s "summary") (s "All") (s "RC 1.0") [] [] []
  = filteredRows no_print no_text day_number (Some sample_table)
    (s "summary") (s "All") (s "1.0.0") [] [] [].
Proof.
  apply filteredRows_same_build.
  - discriminate.
  - discriminate.
  - vm_compute. reflexivity.
Defined.

Lemma filteredRows_dated_witness :
  isNaN (day_number
           (get (make_row (headers sample_table) (s "RC 2.0,Android,8,7"))
                (col_key (findCol (headers sample_table) DATE_COL_ALIASES))))
  = false.
Proof.
  refine (proj1 (proj2 (filteredRows_dated no_print no_text day_number
            sample_table (s "summary") (s "All") (s "All") (s "5") [] []
            (make_row (headers sample_table) (s "RC 2.0,Android,8,7"))
            _ _ _))).
  - left. discriminate.
  - vm_compute. reflexivity.
  - vm_compute. left.
Defined.

Lemma dates_without_date_column_witness :
  summaryRows no_print no_text day_number sample_undated
    (s "All") (s "All") (s "5") [] = [].
Proof.
  refine (proj2 (proj2 (proj2 (dates_without_date_column no_print no_text
            day_number sample_undated (s "summary") (s "All") (s "All")
            (s "5") [] [] _ _))) _).
  - left. discriminate.
  - vm_compute. reflexivity.
  - intros r. apply rows_no_empty_header. vm_compute. intros H.
    repeat (apply elem_of_cons in H as [H|H]; [discriminate|]).
    by apply elem_of_nil in H.
Defined.
